(** * Verification of the dockerizer scanner (src/src/scanner.mjs)

    A shallow embedding of the parts of [scanner.mjs] that the project
    scan, the image build and the deployment drivers are made of.

    Conventions of the embedding:
    - JavaScript strings are [String.string]; character predicates cover the
      ASCII range (JS [toLowerCase], [trim] and [/\s/] restricted to ASCII).
    - The file system below the project path is a tree of [entry] whose
      [Dir] children are in [fs.readdir] order; paths are normalised, so
      [path.join d n] is [d ++ "/" ++ n] for a name [n] with no slash.
    - Effects are written out as explicit traces of events ([ev]) together
      with an outcome; external tools (docker, kubectl, the clock) are
      inputs of the functions. *)

From Stdlib Require Import String Ascii List Bool ZArith Lia.
Set Warnings "-register-all".

Import ListNotations.
Open Scope list_scope.
Open Scope string_scope.

(** ** String operations of the JavaScript runtime *)

Module JS.

(** [c.toLowerCase()] on one ASCII character. *)
Definition ascii_lower (c : ascii) : ascii :=
  let n := nat_of_ascii c in
  if (65 <=? n)%nat && (n <=? 90)%nat then ascii_of_nat (n + 32) else c.

(** [s.toLowerCase()] *)
Fixpoint toLowerCase (s : string) : string :=
  match s with
  | EmptyString => EmptyString
  | String c s' => String (ascii_lower c) (toLowerCase s')
  end.

(** The characters of [/\s/] and of [String.prototype.trim] (ASCII part). *)
Definition is_ws (c : ascii) : bool :=
  match nat_of_ascii c with
  | 9 | 10 | 11 | 12 | 13 | 32 => true
  | _ => false
  end.

Fixpoint rev_str (s : string) : string :=
  match s with
  | EmptyString => EmptyString
  | String c s' => rev_str s' ++ String c EmptyString
  end.

(** [s.endsWith(suf)] *)
Definition endsWith (s suf : string) : bool :=
  String.prefix (rev_str suf) (rev_str s).

(** [s.includes(sub)] *)
Definition includes (s sub : string) : bool :=
  match String.index 0 sub s with
  | Some _ => true
  | None => false
  end.

(** [s.replace(pat, rep)] with a string pattern: only the first occurrence
    is replaced ([rep] holds no [$] pattern in this program). *)
Fixpoint replace (s pat rep : string) : string :=
  if String.prefix pat s then rep ++ substring (String.length pat) (String.length s) s
  else match s with
       | EmptyString => s
       | String c s' => String c (replace s' pat rep)
       end.

Fixpoint trim_start (s : string) : string :=
  match s with
  | EmptyString => EmptyString
  | String c s' => if is_ws c then trim_start s' else s
  end.

(** [s.trim()] *)
Definition trim (s : string) : string :=
  rev_str (trim_start (rev_str (trim_start s))).

(** [s.split(sep)] for a one-character separator. *)
Fixpoint split_char_acc (sep : ascii) (s cur : string) : list string :=
  match s with
  | EmptyString => [rev_str cur]
  | String c s' =>
      if Ascii.eqb c sep then rev_str cur :: split_char_acc sep s' EmptyString
      else split_char_acc sep s' (String c cur)
  end.

Definition split_char (sep : ascii) (s : string) : list string :=
  split_char_acc sep s EmptyString.

(** [s.split(/\s+/)]: maximal runs of white space separate the fields; a
    leading (trailing) run gives an empty first (last) field. *)
Fixpoint split_ws_acc (s cur : string) (in_sep : bool) : list string :=
  match s with
  | EmptyString => [rev_str cur]
  | String c s' =>
      if is_ws c then
        if in_sep then split_ws_acc s' EmptyString true
        else rev_str cur :: split_ws_acc s' EmptyString true
      else split_ws_acc s' (String c cur) false
  end.

Definition split_ws (s : string) : list string := split_ws_acc s EmptyString false.

End JS.

(** ** Paths (Node's [path] on normalised POSIX paths) *)

Module Path.

(** [path.join(d, n)] for a directory path [d] without trailing slash and a
    single path component [n]. *)
Definition join (d n : string) : string := d ++ "/" ++ n.

Definition slash : ascii := "/"%char.

Fixpoint after_slash (r : string) : option string :=
  match r with
  | EmptyString => None
  | String c r' => if Ascii.eqb c slash then Some r' else after_slash r'
  end.

(** [path.dirname(p)]: everything before the last slash; ["/"] for a path
    directly below the root and ["."] for a path without slash. *)
Definition dirname (p : string) : string :=
  match after_slash (JS.rev_str p) with
  | None => "."
  | Some r => match JS.rev_str r with EmptyString => "/" | d => d end
  end.

End Path.

(** ** Errors, events and the driver monad *)

(** The errors the functions of [scanner.mjs] can throw. *)
Inductive err : Type :=
| ENOENT (path : string)            (* fs.stat / fs.readFile of a missing path *)
| EISDIR (path : string)            (* fs.readFile of a directory *)
| InvalidPath (msg : string)        (* the explicit path guards *)
| DockerfileNotFound                (* Error('Dockerfile not found in project directory') *)
| DockerBuildFailed (code : Z)      (* Error(`Docker build failed with exit code ${code}`) *)
| JsonSyntaxError (path : string)   (* JSON.parse *)
| YamlError (path : string)         (* yaml.load *)
| TypeError (msg : string)          (* property access on undefined / null, for-of *)
| ExecFailed (stderr : string)      (* an exec callback rejecting *)
| PodsTimeout.                      (* Error('Timeout waiting for pods to become ready.') *)

Definition err_message (e : err) : string :=
  match e with
  | ENOENT p => "ENOENT: no such file or directory, '" ++ p ++ "'"
  | EISDIR p => "EISDIR: illegal operation on a directory, '" ++ p ++ "'"
  | InvalidPath m => m
  | DockerfileNotFound => "Dockerfile not found in project directory"
  | DockerBuildFailed _ => "Docker build failed"
  | JsonSyntaxError p => "Unexpected token in JSON at " ++ p
  | YamlError p => "YAMLException in " ++ p
  | TypeError m => m
  | ExecFailed s => s
  | PodsTimeout => "Timeout waiting for pods to become ready."
  end.

(** Observable effects: the [log] function (console and log file), the
    spinner, commands handed to [exec], and file writes. *)
Inductive ev : Type :=
| Log (msg : string)
| SpinnerFail (msg : string)
| SpinnerSucceed (msg : string)
| Exec (cmd : string)
| WriteFile (path content : string).

(** A directory tree: the children of a [Dir] are in [fs.readdir] order. *)
Inductive entry : Type :=
| File (name content : string)
| Dir (name : string) (children : list entry).

Definition entry_name (e : entry) : string :=
  match e with File n _ => n | Dir n _ => n end.

(** The state the drivers act on: the children of the project directory and
    the files written into [process.cwd()] (a directory outside the
    project). *)
Record world : Type := mkWorld {
  proj : list entry;
  cwd_files : list (string * string)
}.

Inductive res (A : Type) : Type :=
| Ok (a : A)
| Throw (e : err).
Arguments Ok {A} a.
Arguments Throw {A} e.

(** An [async] function: state passing, an event trace, and an outcome that
    is either a value or a thrown error. *)
Definition M (A : Type) : Type := world -> world * list ev * res A.

Definition ret {A} (a : A) : M A := fun w => (w, [], Ok a).

Definition bind {A B} (m : M A) (k : A -> M B) : M B :=
  fun w =>
    match m w with
    | (w1, evs1, Ok a) =>
        match k a w1 with (w2, evs2, r) => (w2, app evs1 evs2, r) end
    | (w1, evs1, Throw e) => (w1, evs1, Throw e)
    end.

Notation "x <- m ;; k" := (bind m (fun x => k))
  (at level 61, m at next level, right associativity).
Notation "m ;;; k" := (bind m (fun _ => k))
  (at level 61, right associativity).

Definition emit (e : ev) : M unit := fun w => (w, [e], Ok tt).
Definition log (msg : string) : M unit := emit (Log msg).
Definition throw {A} (e : err) : M A := fun w => (w, [], Throw e).
Definition get_world : M world := fun w => (w, [], Ok w).
Definition put_world (w' : world) : M unit := fun _ => (w', [], Ok tt).

(** [try { m } catch (err) { await log(msg(err)); throw err; }] *)
Definition log_and_rethrow {A} (msg : err -> string) (m : M A) : M A :=
  fun w =>
    match m w with
    | (w1, evs1, Throw e) => (w1, app evs1 [Log (msg e)], Throw e)
    | r => r
    end.

(** [for (const x of xs) await body(x)] *)
Fixpoint for_each {A} (xs : list A) (body : A -> M unit) : M unit :=
  match xs with
  | [] => ret tt
  | x :: r => body x ;;; for_each r body
  end.

(** ** Directory walks *)

(** [scanEntireDirectory(directory)]: every file below the directory, in
    depth-first [readdir] order, as a joined path. *)
Fixpoint scan_entry (dir : string) (e : entry) : list string :=
  match e with
  | File n _ => [Path.join dir n]
  | Dir n ch => flat_map (scan_entry (Path.join dir n)) ch
  end.

Definition scanEntireDirectory (dir : string) (children : list entry) : list string :=
  flat_map (scan_entry dir) children.

(** The files below a directory as (containing directory, name) pairs, in
    the same depth-first order. *)
Fixpoint files_entry (dir : string) (e : entry) : list (string * string) :=
  match e with
  | File n _ => [(dir, n)]
  | Dir n ch => flat_map (files_entry (Path.join dir n)) ch
  end.

Definition files_dfs (dir : string) (children : list entry) : list (string * string) :=
  flat_map (files_entry dir) children.

(** [findFileRecursively(directory, fileName)]: the first file, in the
    depth-first walk, whose lower-cased name equals the lower-cased
    [fileName]. *)
Fixpoint find_entry (lname dir : string) (e : entry) : option string :=
  match e with
  | Dir n ch =>
      (fix go (l : list entry) : option string :=
         match l with
         | [] => None
         | x :: r =>
             match find_entry lname (Path.join dir n) x with
             | Some p => Some p
             | None => go r
             end
         end) ch
  | File n _ =>
      if String.eqb (JS.toLowerCase n) lname then Some (Path.join dir n) else None
  end.

Fixpoint find_in (lname dir : string) (l : list entry) : option string :=
  match l with
  | [] => None
  | x :: r =>
      match find_entry lname dir x with
      | Some p => Some p
      | None => find_in lname dir r
      end
  end.

Definition findFileRecursively (dir : string) (children : list entry) (fileName : string)
  : option string :=
  find_in (JS.toLowerCase fileName) dir children.

(** ** Image builder *)

(** Decimal rendering of an integer, as in a template literal. *)
Fixpoint digits (fuel : nat) (n : Z) : string :=
  match fuel with
  | O => EmptyString
  | S f =>
      let c := ascii_of_nat (48 + Z.to_nat (Z.modulo n 10)) in
      if (n <? 10)%Z then String c EmptyString
      else digits f (n / 10)%Z ++ String c EmptyString
  end.

Definition Z_to_string (z : Z) : string :=
  if (z <? 0)%Z then "-" ++ digits 64 (- z) else digits 64 z.

(** [buildDockerImage(projectPath, projectName, imageTag)]; [docker_exit] is
    the exit code the [docker build] process reports. *)
Definition buildDockerImage (projectPath projectName imageTag : string) (docker_exit : Z)
  : M unit :=
  log ("Starting Docker image build for project: " ++ projectName ++ " with tag: " ++ imageTag) ;;;
  log_and_rethrow
    (fun e => "Failed to build Docker image for " ++ projectName ++ ":" ++ imageTag ++ ": "
              ++ err_message e)
    (w <- get_world ;;
     match findFileRecursively projectPath (proj w) "Dockerfile" with
     | None => throw DockerfileNotFound
     | Some dockerfilePath =>
         let buildContext := Path.dirname dockerfilePath in
         log ("Using Dockerfile located at: " ++ dockerfilePath) ;;;
         log ("Using build context: " ++ buildContext) ;;;
         let buildCommand :=
           "docker build -t " ++ projectName ++ ":" ++ imageTag ++ " " ++ buildContext in
         emit (Exec buildCommand) ;;;
         if Z.eqb docker_exit 0 then
           log ("Docker image '" ++ projectName ++ ":" ++ imageTag ++ "' built successfully.")
         else
           log ("Docker build failed with exit code " ++ Z_to_string docker_exit ++ ".") ;;;
           throw (DockerBuildFailed docker_exit)
     end).

(** The build command [buildDockerImage] issues for a build context. *)
Definition docker_build_cmd (projectName imageTag ctx : string) : string :=
  "docker build -t " ++ projectName ++ ":" ++ imageTag ++ " " ++ ctx.

(** The name test of [findFileRecursively] for a lower-cased name. *)
Definition name_is (lname : string) (f : string * string) : bool :=
  String.eqb (JS.toLowerCase (snd f)) lname.

Definition is_dockerfile_name : string * string -> bool := name_is "dockerfile".

Fixpoint no_slash (s : string) : bool :=
  match s with
  | EmptyString => true
  | String c s' => negb (Ascii.eqb c Path.slash) && no_slash s'
  end.

(** ** An induction principle for directory trees *)

Section EntryInd.
Variable P : entry -> Prop.
Hypothesis HFile : forall n c, P (File n c).
Hypothesis HDir : forall n ch, Forall P ch -> P (Dir n ch).

Fixpoint entry_ind' (e : entry) : P e :=
  match e with
  | File n c => HFile n c
  | Dir n ch =>
      HDir n ch
        ((fix go (l : list entry) : Forall P l :=
            match l with
            | [] => Forall_nil P
            | x :: r => Forall_cons x (entry_ind' x) (go r)
            end) ch)
  end.
End EntryInd.

Definition join_pair (f : string * string) : string := Path.join (fst f) (snd f).

(** ** Text helpers and the Dockerfile templates *)

Definition nl : string := String (ascii_of_nat 10) EmptyString.
Definition quote (s : string) : string :=
  String (ascii_of_nat 34) (s ++ String (ascii_of_nat 34) EmptyString).

(** A file made of lines, each ended by a newline. *)
Fixpoint lines (l : list string) : string :=
  match l with
  | [] => EmptyString
  | x :: r => x ++ nl ++ lines r
  end.

Definition EXPOSE_3000 : string := "EXPOSE 3000".
Definition EXPOSE_8000 : string := "EXPOSE 8000".
(** CMD ["npm", "start"] *)
Definition CMD_npm_start : string := "CMD [" ++ quote "npm" ++ ", " ++ quote "start" ++ "]".
(** CMD ["node", "index.js"] *)
Definition CMD_node_index : string := "CMD [" ++ quote "node" ++ ", " ++ quote "index.js" ++ "]".

(** Modelled from the spec: [templates/nodejs.Dockerfile], which is not
    among the sources. The spec describes it as the one nodejs template,
    with a declared expose-port line and a start-command line; these are the
    lines [EXPOSE 3000] and [CMD ["npm", "start"]] that [generateDockerfile]
    rewrites, each occurring once. *)
Definition nodejs_template : string :=
  lines ["# Base image"; "FROM node:14"; "";
         "# Set the working directory"; "WORKDIR /app"; "";
         "# Copy and install dependencies"; "COPY package*.json ./"; "RUN npm install"; "";
         "# Copy the rest of the application code"; "COPY . ."; "";
         "# Expose the application port"; EXPOSE_3000; "";
         "# Start the application"; CMD_npm_start].

(** [templates/java.Dockerfile] *)
Definition java_template : string :=
  lines ["# Base image"; "FROM openjdk:11-jdk"; "";
         "# Set the working directory"; "WORKDIR /app"; "";
         "# Copy the Maven project files"; "COPY pom.xml ./"; "COPY src ./src"; "";
         "# Package the application"; "RUN mvn package"; "";
         "# Expose the application port (default for Spring Boot)"; "EXPOSE 8080"; "";
         "# Start the application";
         "CMD [" ++ quote "java" ++ ", " ++ quote "-jar" ++ ", " ++ quote "target/myapp.jar" ++ "]"].

(** [templates/python.Dockerfile] (it carries a second, Ruby, section). *)
Definition python_template : string :=
  lines ["# Base image"; "FROM python:3.9"; "";
         "# Set the working directory"; "WORKDIR /app"; "";
         "# Copy and install dependencies"; "COPY requirements.txt ./";
         "RUN pip install --no-cache-dir -r requirements.txt"; "";
         "# Copy the rest of the application code"; "COPY . ."; "";
         "# Expose the application port (if applicable)"; "EXPOSE 5000"; "";
         "# Start the application (modify the command as per your app)";
         "CMD [" ++ quote "python" ++ ", " ++ quote "app.py" ++ "]";
         "# Base image"; "FROM ruby:2.7"; "";
         "# Set the working directory"; "WORKDIR /app"; "";
         "# Install dependencies"; "COPY Gemfile Gemfile.lock ./"; "RUN bundle install"; "";
         "# Copy the rest of the application code"; "COPY . ."; "";
         "# Expose the application port"; "EXPOSE 3000"; "";
         "# Start the application (modify the command as per your app)";
         "CMD [" ++ quote "rails" ++ ", " ++ quote "server" ++ ", " ++ quote "-b" ++ ", "
           ++ quote "0.0.0.0" ++ "]"].

(** [fs.readFile(path.join(__dirname, `../templates/${projectType}.Dockerfile`))] *)
Definition read_template (projectType : string) : M string :=
  if String.eqb projectType "nodejs" then ret nodejs_template
  else if String.eqb projectType "java" then ret java_template
  else if String.eqb projectType "python" then ret python_template
  else throw (ENOENT ("templates/" ++ projectType ++ ".Dockerfile")).

(** ** JSON values (the result of [JSON.parse]) *)

Inductive json : Type :=
| JNull
| JBool (b : bool)
| JNum (z : Z)
| JStr (s : string)
| JArr (l : list json)
| JObj (kvs : list (string * json)).

(** JavaScript truthiness of a value; [None] is [undefined]. *)
Definition truthy (v : option json) : bool :=
  match v with
  | None | Some JNull => false
  | Some (JBool b) => b
  | Some (JNum z) => negb (Z.eqb z 0)
  | Some (JStr s) => negb (String.eqb s "")
  | Some (JArr _) | Some (JObj _) => true
  end.

(** [JSON.parse] keeps the last of duplicated keys. *)
Fixpoint assoc_last {A} (k : string) (kvs : list (string * A)) : option A :=
  match kvs with
  | [] => None
  | (k', v) :: r =>
      match assoc_last k r with
      | Some x => Some x
      | None => if String.eqb k k' then Some v else None
      end
  end.

(** [v.k] / [v[k]] on a parsed value: a [TypeError] on [null], [undefined] on
    the other primitives and on arrays (for non-index keys). *)
Definition json_get (v : json) (k : string) : res (option json) :=
  match v with
  | JNull => Throw (TypeError ("Cannot read properties of null (reading '" ++ k ++ "')"))
  | JObj kvs => Ok (assoc_last k kvs)
  | _ => Ok None
  end.

(** Lookups of the root directory's children by name ([fs.pathExists] of
    [path.join(projectPath, name)]). *)
Fixpoint find_child (n : string) (l : list entry) : option entry :=
  match l with
  | [] => None
  | e :: r => if String.eqb (entry_name e) n then Some e else find_child n r
  end.

(** [fs.writeFile(path.join(projectPath, n), c)] on a root file. *)
Fixpoint write_child (n c : string) (l : list entry) : list entry :=
  match l with
  | [] => [File n c]
  | File n' c' :: r => if String.eqb n' n then File n c :: r else File n' c' :: write_child n c r
  | Dir n' ch :: r => Dir n' ch :: write_child n c r
  end.

Definition write_proj_file (projectPath n c : string) : M unit :=
  w <- get_world ;;
  match find_child n (proj w) with
  | Some (Dir _ _) => throw (EISDIR (Path.join projectPath n))
  | _ => put_world (mkWorld (write_child n c (proj w)) (cwd_files w)) ;;;
         emit (WriteFile (Path.join projectPath n) c)
  end.

(** [fs.readFile(path.join(projectPath, n))] of an existing root entry. *)
Definition read_proj_file (projectPath n : string) : M string :=
  w <- get_world ;;
  match find_child n (proj w) with
  | Some (File _ c) => ret c
  | Some (Dir _ _) => throw (EISDIR (Path.join projectPath n))
  | None => throw (ENOENT (Path.join projectPath n))
  end.

Definition path_exists (n : string) : M bool :=
  w <- get_world ;;
  ret (match find_child n (proj w) with Some _ => true | None => false end).

Definition lift {A} (r : res A) : M A :=
  match r with Ok a => ret a | Throw e => throw e end.

(** [try { m } catch (err) { <handler events>; throw err; }] *)
Definition rethrow_with {A} (handler : err -> list ev) (m : M A) : M A :=
  fun w =>
    match m w with
    | (w1, evs1, Throw e) => (w1, app evs1 (handler e), Throw e)
    | r => r
    end.

(** ** Project scan and Dockerfile synthesis *)

Section Scanner.

(** [JSON.parse] ([None] when it throws) and [JSON.stringify]. *)
Variable json_parse : string -> option json.
Variable json_stringify : json -> string.

(** [analyzeNodeProject(projectPath)]: the parsed root package.json ([{}]
    when absent) and the text of the root index.js ([''] when absent). *)
Definition analyzeNodeProject (projectPath : string) : M (json * string) :=
  has_pkg <- path_exists "package.json" ;;
  pkg <- (if has_pkg then
            c <- read_proj_file projectPath "package.json" ;;
            match json_parse c with
            | Some v => ret v
            | None => throw (JsonSyntaxError (Path.join projectPath "package.json"))
            end
          else (log "No package.json found." ;;; ret (JObj []))) ;;
  has_idx <- path_exists "index.js" ;;
  idx <- (if has_idx then read_proj_file projectPath "index.js"
          else (log "No index.js found." ;;; ret EmptyString)) ;;
  ret (pkg, idx).

Definition stringify_opt (v : option json) : string :=
  match v with Some d => json_stringify d | None => "undefined" end.

(** The nodejs branch of [generateDockerfile]: the template and its two
    textual substitutions. *)
Definition nodejs_dockerfile (projectPath : string) : M string :=
  log "Analyzing Node.js project..." ;;;
  pi <- analyzeNodeProject projectPath ;;
  let '(packageJsonData, indexJsContent) := pi in
  t <- read_template "nodejs" ;;
  deps <- lift (json_get packageJsonData "dependencies") ;;
  c1 <- (if truthy deps then
           (log ("Dependencies found: " ++ stringify_opt deps) ;;;
            express <- lift (match deps with Some d => json_get d "express" | None => Ok None end) ;;
            ret (if truthy express then
                   JS.replace (JS.replace t EXPOSE_3000 EXPOSE_8000) CMD_npm_start CMD_node_index
                 else t))
         else ret t) ;;
  if JS.includes indexJsContent "app.listen(8000)" then
    (log "Port 8000 detected in index.js." ;;; ret (JS.replace c1 EXPOSE_3000 EXPOSE_8000))
  else ret c1.

(** [generateDockerfile(projectType, projectPath)] *)
Definition generateDockerfile (projectType projectPath : string) : M string :=
  let existingDockerfilePath := Path.join projectPath "Dockerfile" in
  exists_df <- path_exists "Dockerfile" ;;
  if exists_df then
    (log "Existing Dockerfile found, skipping generation." ;;; ret existingDockerfilePath)
  else
    (log ("Generating Dockerfile for project type: " ++ projectType) ;;;
     rethrow_with (fun e => [Log ("Failed to generate Dockerfile: " ++ err_message e)])
       (dockerfileContent <- (if String.eqb projectType "nodejs" then nodejs_dockerfile projectPath
                              else read_template projectType) ;;
        log "Writing the customized Dockerfile..." ;;;
        write_proj_file projectPath "Dockerfile" (JS.trim dockerfileContent) ;;;
        log ("Dockerfile generated at " ++ existingDockerfilePath)) ;;;
     ret existingDockerfilePath).

(** The loop of [scanProject] over [scanEntireDirectory]'s result, with the
    two flags [dockerFileFound] and [packageJsonFound]. *)
Fixpoint scan_loop (files : list string) (dockerFileFound packageJsonFound : bool)
  : M (bool * bool) :=
  match files with
  | [] => ret (dockerFileFound, packageJsonFound)
  | file :: rest =>
      if JS.endsWith (JS.toLowerCase file) "dockerfile" then
        (log ("Found Dockerfile: " ++ file) ;;; scan_loop rest true packageJsonFound)
      else if JS.endsWith file "package.json" then
        (log ("Found package.json: " ++ file) ;;; scan_loop rest dockerFileFound true)
      else
        (log ("Found file: " ++ file) ;;; scan_loop rest dockerFileFound packageJsonFound)
  end.

(** What [fs.stat(projectPath)] finds; for [PDir] the children are the
    world's [proj]. *)
Inductive path_kind : Type := PMissing | PFile | PDir.

Definition unknown_type_msg : string := "Unable to determine the project type".

(** [scanProject(projectPath, projectName, imageTag)]; [docker_exit] is the
    exit code of the [docker build] it may run. *)
Definition scanProject (projectPath : string) (kind : path_kind)
  (projectName imageTag : string) (docker_exit : Z) : M unit :=
  log ("Received projectName: " ++ projectName ++ ", imageTag: " ++ imageTag) ;;;
  rethrow_with
    (fun e => [Log ("Error scanning project or building Docker image: " ++ err_message e);
               SpinnerFail "Error scanning project or building Docker image"])
    (log ("Scanning directory: " ++ projectPath) ;;;
     match kind with
     | PMissing => throw (ENOENT projectPath)
     | PFile =>
         emit (SpinnerFail ("Error: " ++ projectPath ++ " is not a directory")) ;;;
         log ("Provided path is not a directory: " ++ projectPath)
     | PDir =>
         w <- get_world ;;
         let allFiles := scanEntireDirectory projectPath (proj w) in
         flags <- scan_loop allFiles false false ;;
         let '(dockerFileFound, packageJsonFound) := flags in
         (if packageJsonFound then
            (log "Node.js project detected." ;;;
             emit (SpinnerSucceed "Detected a Node.js project") ;;;
             (if dockerFileFound then emit (SpinnerSucceed "Using existing Dockerfile.")
              else (generateDockerfile "nodejs" projectPath ;;;
                    emit (SpinnerSucceed "Dockerfile generated for Node.js project."))) ;;;
             buildDockerImage projectPath projectName imageTag docker_exit ;;;
             emit (SpinnerSucceed ("Docker image '" ++ projectName ++ ":" ++ imageTag
                                   ++ "' built successfully.")))
          else
            (emit (SpinnerFail unknown_type_msg) ;;;
             log "Failed to determine project type. No known configuration files found.")) ;;;
         emit (SpinnerSucceed "Project scan and Docker image creation completed.")
     end).

End Scanner.

(** ** The scan loop's classification of files *)

Definition is_df (f : string) : bool := JS.endsWith (JS.toLowerCase f) "dockerfile".
Definition is_pj (f : string) : bool := negb (is_df f) && JS.endsWith f "package.json".

(** The log line [scanProject]'s loop writes for one file. *)
Definition scan_log (f : string) : ev :=
  Log (if is_df f then "Found Dockerfile: " ++ f
       else if JS.endsWith f "package.json" then "Found package.json: " ++ f
       else "Found file: " ++ f).

(** ** The nodejs template after the express rule, and a package.json *)

(** The nodejs template after the express rule: [EXPOSE 3000] becomes
    [EXPOSE 8000] and [CMD ["npm", "start"]] becomes [CMD ["node", "index.js"]]. *)
Definition express_substituted : string :=
  JS.replace (JS.replace nodejs_template EXPOSE_3000 EXPOSE_8000) CMD_npm_start CMD_node_index.

(** The package.json text {"dependencies": {"express": ""}}: express is a
    declared dependency with the empty version range (npm reads it as "*"). *)
Definition pkg_text_express_empty : string :=
  "{" ++ quote "dependencies" ++ ": {" ++ quote "express" ++ ": " ++ quote EmptyString ++ "}}".

Definition pkg_express_empty : json :=
  JObj [("dependencies", JObj [("express", JStr EmptyString)])].

Definition parse_express_empty (s : string) : option json :=
  if String.eqb s pkg_text_express_empty then Some pkg_express_empty else None.

(** ** YAML documents and [updateWebDeploymentImage] *)

(** A value of [yaml.load]: mappings keep their key order. *)
Inductive yval : Type :=
| YNull
| YBool (b : bool)
| YNum (z : Z)
| YStr (s : string)
| YSeq (l : list yval)
| YMap (kvs : list (string * yval)).

Fixpoint assoc_first {A} (k : string) (kvs : list (string * A)) : option A :=
  match kvs with
  | [] => None
  | (k', v) :: r => if String.eqb k k' then Some v else assoc_first k r
  end.

(** [obj[k] = v] on a mapping: the key keeps its place, a new key goes last. *)
Fixpoint assoc_set {A} (k : string) (v : A) (kvs : list (string * A)) : list (string * A) :=
  match kvs with
  | [] => [(k, v)]
  | (k', v') :: r => if String.eqb k k' then (k', v) :: r else (k', v') :: assoc_set k v r
  end.

(** [v.k] where [v] may be [undefined] ([None]). *)
Definition yget (v : option yval) (k : string) : res (option yval) :=
  match v with
  | None => Throw (TypeError ("Cannot read properties of undefined (reading '" ++ k ++ "')"))
  | Some YNull => Throw (TypeError ("Cannot read properties of null (reading '" ++ k ++ "')"))
  | Some (YMap kvs) => Ok (assoc_first k kvs)
  | Some _ => Ok None
  end.

(** [String(v)] in a template literal. *)
Fixpoint yval_to_string (v : yval) : string :=
  match v with
  | YNull => "null"
  | YBool b => if b then "true" else "false"
  | YNum z => Z_to_string z
  | YStr s => s
  | YSeq l =>
      (fix go (l : list yval) : string :=
         match l with
         | [] => EmptyString
         | [x] => match x with YNull => EmptyString | _ => yval_to_string x end
         | x :: r => match x with YNull => EmptyString | _ => yval_to_string x end ++ "," ++ go r
         end) l
  | YMap _ => "[object Object]"
  end.

Definition opt_to_string (v : option yval) : string :=
  match v with Some x => yval_to_string x | None => "undefined" end.

(** [deploymentYaml.spec.template.spec.containers] *)
Definition containers_of (doc : yval) : res (option yval) :=
  match yget (Some doc) "spec" with
  | Throw e => Throw e
  | Ok s =>
      match yget s "template" with
      | Throw e => Throw e
      | Ok t =>
          match yget t "spec" with
          | Throw e => Throw e
          | Ok ts => yget ts "containers"
          end
      end
  end.

(** [deploymentYaml.spec.template.spec.containers = cs], the in-place update
    seen from the root; the three levels are mappings whenever
    [containers_of] found a value. *)
Definition set_containers (doc : yval) (cs : yval) : yval :=
  match doc with
  | YMap d =>
      match assoc_first "spec" d with
      | Some (YMap s) =>
          match assoc_first "template" s with
          | Some (YMap t) =>
              match assoc_first "spec" t with
              | Some (YMap ts) =>
                  YMap (assoc_set "spec"
                          (YMap (assoc_set "template"
                                   (YMap (assoc_set "spec"
                                            (YMap (assoc_set "containers" cs ts)) t)) s)) d)
              | _ => doc
              end
          | _ => doc
          end
      | _ => doc
      end
  | _ => doc
  end.

(** One iteration of the loop over the containers:
    [container.image = newImage; container.imagePullPolicy = 'IfNotPresent'].
    Reading [.image] of [null] and writing a property of a primitive (strict
    mode) throw; an array takes the properties, but [yaml.dump] writes only
    its elements. *)
Definition update_container (newImage : string) (c : yval) : res yval :=
  match c with
  | YMap kvs =>
      Ok (YMap (assoc_set "imagePullPolicy" (YStr "IfNotPresent")
                  (assoc_set "image" (YStr newImage) kvs)))
  | YSeq l => Ok (YSeq l)
  | YNull => Throw (TypeError "Cannot read properties of null (reading 'image')")
  | _ => Throw (TypeError "Cannot create property 'image' on a primitive")
  end.

Definition old_image (c : yval) : string :=
  match c with YMap kvs => opt_to_string (assoc_first "image" kvs) | _ => "undefined" end.

Fixpoint update_loop (newImage : string) (cs : list yval) : M (list yval) :=
  match cs with
  | [] => ret []
  | c :: rest =>
      c' <- lift (update_container newImage c) ;;
      log ("Updated image from " ++ old_image c ++ " to " ++ newImage
           ++ " in web-deployment.yaml") ;;;
      rest' <- update_loop newImage rest ;;
      ret (c' :: rest')
  end.

(** [for (let container of containers)]: arrays iterate their elements, a
    string its characters (none for the empty string, a TypeError on the
    first assignment otherwise); other values are not iterable. *)
Definition update_containers (newImage : string) (cs : option yval) : M yval :=
  match cs with
  | Some (YSeq l) => l' <- update_loop newImage l ;; ret (YSeq l')
  | Some (YStr EmptyString) => ret (YStr EmptyString)
  | Some (YStr _) => throw (TypeError "Cannot create property 'image' on string")
  | _ => throw (TypeError "containers is not iterable")
  end.

Section Kubernetes.

(** [yaml.load] ([None] when it throws) and [yaml.dump] of js-yaml. *)
Variable yaml_load : string -> option yval.
Variable yaml_dump : yval -> string.

(** [updateWebDeploymentImage(projectPath, projectName, imageTag)] *)
Definition updateWebDeploymentImage (projectPath projectName imageTag : string) : M unit :=
  let webDeploymentPath := Path.join projectPath "web-deployment.yaml" in
  rethrow_with (fun e => [Log ("Error updating web-deployment.yaml: " ++ err_message e)])
    (fileContents <- read_proj_file projectPath "web-deployment.yaml" ;;
     deploymentYaml <- (match yaml_load fileContents with
                        | Some d => ret d
                        | None => throw (YamlError webDeploymentPath)
                        end) ;;
     containers <- lift (containers_of deploymentYaml) ;;
     let newImage := projectName ++ ":" ++ imageTag in
     containers' <- update_containers newImage containers ;;
     let updatedYaml := yaml_dump (set_containers deploymentYaml containers') in
     write_proj_file projectPath "web-deployment.yaml" updatedYaml ;;;
     log ("Updated web-deployment.yaml with new image: " ++ newImage)).

(** [JSON.stringify] of an array of strings (the paths hold no character
    that needs escaping). *)
Fixpoint join_comma (l : list string) : string :=
  match l with
  | [] => EmptyString
  | [x] => x
  | x :: r => x ++ "," ++ join_comma r
  end.

Definition stringify_strings (l : list string) : string :=
  "[" ++ join_comma (map quote l) ++ "]".

(** [scanYAMLFiles(directory)]: [service.yaml] is tested first. *)
Definition is_service_yaml (f : string) : bool := JS.endsWith f "service.yaml".
Definition is_deployment_yaml (f : string) : bool :=
  negb (is_service_yaml f) && JS.endsWith f "deployment.yaml".

Definition scanYAMLFiles (directory : string) : M (list string * list string) :=
  if String.eqb directory EmptyString
  then throw (InvalidPath ("Invalid directory path: " ++ directory))
  else
    w <- get_world ;;
    let allFiles := scanEntireDirectory directory (proj w) in
    ret (filter is_service_yaml allFiles, filter is_deployment_yaml allFiles).

(** The two manifests of [generateKubernetesYAML], before [.trim()]. *)
Definition deploymentYAML (projectName imageTag : string) : string :=
  nl ++ lines
    ["apiVersion: apps/v1"; "kind: Deployment"; "metadata:";
     "  name: " ++ projectName ++ "-deployment"; "spec:"; "  replicas: 1";
     "  selector:"; "    matchLabels:"; "      app: " ++ projectName;
     "  template:"; "    metadata:"; "      labels:"; "        app: " ++ projectName;
     "    spec:"; "      containers:"; "      - name: " ++ projectName;
     "        image: " ++ projectName ++ ":" ++ imageTag; "        ports:";
     "        - containerPort: 80"].

Definition serviceYAML (projectName : string) : string :=
  nl ++ lines
    ["apiVersion: v1"; "kind: Service"; "metadata:";
     "  name: " ++ projectName ++ "-service"; "spec:"; "  selector:";
     "    app: " ++ projectName; "  type: NodePort"; "  ports:";
     "  - protocol: TCP"; "    port: 80"; "    targetPort: 80"].

(** [fs.writeFile] of a file of [process.cwd()] (full path). *)
Fixpoint set_file (p c : string) (l : list (string * string)) : list (string * string) :=
  match l with
  | [] => [(p, c)]
  | (p', c') :: r => if String.eqb p p' then (p, c) :: r else (p', c') :: set_file p c r
  end.

Definition write_cwd_file (p c : string) : M unit :=
  w <- get_world ;;
  put_world (mkWorld (proj w) (set_file p c (cwd_files w))) ;;;
  emit (WriteFile p c).

(** [generateKubernetesYAML(projectName, imageTag)]; [cwd] is [process.cwd()]. *)
Definition generateKubernetesYAML (cwd projectName imageTag : string) : M unit :=
  write_cwd_file (Path.join cwd (projectName ++ "-deployment.yaml"))
                 (JS.trim (deploymentYAML projectName imageTag)) ;;;
  write_cwd_file (Path.join cwd (projectName ++ "-service.yaml"))
                 (JS.trim (serviceYAML projectName)) ;;;
  log "Generated Kubernetes YAML files for Deployment and Service.".

(** The result handed to an [exec] callback. *)
Inductive exec_result : Type :=
| ExecOk (stdout : string)
| ExecErr (stderr : string).

(** What [kubectl] and the clock answer during one run of the driver:
    [kubectl apply -f] per manifest path, the successive samples of
    [kubectl get pods -n default] and the clock at each loop test of
    [waitForPodsReady] (with [Date.now()] at its start), and the two final
    status queries. *)
Record kube_env : Type := mkKubeEnv {
  kubectl_apply : string -> exec_result;
  poll_start : Z;
  poll_clock : nat -> Z;
  pods_sample : nat -> exec_result;
  get_pods : exec_result;
  get_services : exec_result
}.

(** [fs.pathExists(path.resolve(f))] for the paths the driver applies: the
    files found below the project, and the files written into the working
    directory. *)
Definition file_exists (projectPath f : string) : M bool :=
  w <- get_world ;;
  ret (existsb (String.eqb f) (scanEntireDirectory projectPath (proj w))
       || existsb (fun pc => String.eqb f (fst pc)) (cwd_files w)).

(** One iteration of the loops that apply the deployment and the service
    manifests ([kind] is [deployment] or [service], [Kind] capitalised). *)
Definition apply_yaml (kind Kind projectPath : string) (apply : string -> exec_result)
    (f : string) : M unit :=
  if String.eqb f EmptyString then log (Kind ++ " YAML is undefined or empty. Skipping...")
  else
    log ("Applying " ++ kind ++ " YAML: " ++ f) ;;;
    fileExists <- file_exists projectPath f ;;
    if negb fileExists then log (Kind ++ " YAML file does not exist: " ++ f)
    else
      emit (Exec ("kubectl apply -f " ++ quote f)) ;;;
      match apply f with
      | ExecErr stderr =>
          log ("Error applying " ++ kind ++ " YAML file " ++ f ++ ": " ++ stderr) ;;;
          emit (SpinnerFail ("Failed to apply " ++ kind ++ ": " ++ stderr)) ;;;
          throw (ExecFailed stderr)
      | ExecOk stdout =>
          log (Kind ++ " YAML applied successfully: " ++ f) ;;;
          log (Kind ++ " applied: " ++ stdout) ;;;
          emit (SpinnerSucceed (Kind ++ " applied: " ++ f))
      end.

(** The rows of a [kubectl get pods] listing: [lines.slice(1)] without the
    lines that are blank after [trim()]. *)
Definition is_blank (l : string) : bool := String.eqb (JS.trim l) EmptyString.

Definition pod_rows (out : string) : list string :=
  filter (fun l => negb (is_blank l)) (tl (JS.split_char (ascii_of_nat 10) out)).

(** [columns[2]] of [line.split(/\s+/)] ([None] is [undefined]). *)
Definition pod_status (row : string) : option string := nth_error (JS.split_ws row) 2.

(** The [for] loop of [waitForPodsReady]: [allPodsReady] starts true and
    the first row whose status is not [Running] sets it false and breaks. *)
Fixpoint rows_ready (ls : list string) : bool :=
  match ls with
  | [] => true
  | l :: r =>
      if is_blank l then rows_ready r
      else match nth_error (JS.split_ws l) 2 with
           | Some st => if String.eqb st "Running" then rows_ready r else false
           | None => false
           end
  end.

Definition pods_ready (podsOutput : string) : bool :=
  rows_ready (tl (JS.split_char (ascii_of_nat 10) podsOutput)).

Inductive poll_outcome : Type :=
| PollReady
| PollTimeout
| PollError (stderr : string)
| PollFuel.

(** The [while] loop of [waitForPodsReady]: the [i]-th test reads the clock
    [clock i]; a sample that is not ready is followed by a 5 s sleep. The
    fuel bounds the number of tests. *)
Fixpoint poll_loop (fuel : nat) (namespace : string) (timeout startTime : Z)
    (clock : nat -> Z) (sample : nat -> exec_result) (i : nat) : list ev * poll_outcome :=
  match fuel with
  | O => ([], PollFuel)
  | S fuel' =>
      if (clock i - startTime <? 1000 * timeout)%Z then
        let cmd := Exec ("kubectl get pods -n " ++ namespace) in
        match sample i with
        | ExecErr stderr => ([cmd], PollError stderr)
        | ExecOk podsOutput =>
            if pods_ready podsOutput then ([cmd], PollReady)
            else let '(evs, o) := poll_loop fuel' namespace timeout startTime clock sample (S i) in
                 (cmd :: evs, o)
        end
      else ([], PollTimeout)
  end.

(** With the 5 s sleep between tests, the clock passes the deadline by the
    test numbered [timeout]; [S (Z.to_nat timeout)] tests are enough. *)
Definition poll_fuel (timeout : Z) : nat := S (Z.to_nat timeout).

Definition poll (namespace : string) (timeout startTime : Z) (clock : nat -> Z)
    (sample : nat -> exec_result) : list ev * poll_outcome :=
  poll_loop (poll_fuel timeout) namespace timeout startTime clock sample 0.

Definition emits (evs : list ev) : M unit := fun w => (w, evs, Ok tt).

(** [waitForPodsReady(namespace, timeout)] *)
Definition waitForPodsReady (namespace : string) (timeout startTime : Z)
    (clock : nat -> Z) (sample : nat -> exec_result) : M unit :=
  let '(evs, o) := poll namespace timeout startTime clock sample in
  emits evs ;;;
  match o with
  | PollReady => emit (SpinnerSucceed "All pods are running.")
  | PollError stderr =>
      emit (SpinnerFail "Error while checking pod status.") ;;;
      log ("Error while waiting for pods: " ++ stderr) ;;;
      throw (ExecFailed stderr)
  | PollTimeout | PollFuel =>
      emit (SpinnerFail ("Pods did not become ready within " ++ Z_to_string timeout ++ " seconds.")) ;;;
      throw PodsTimeout
  end.

Definition is_digit (c : ascii) : bool :=
  let n := nat_of_ascii c in (48 <=? n)%nat && (n <=? 57)%nat.

(** The longest run of digits at the start of [s], and the rest. *)
Fixpoint digits_prefix (s : string) : string * string :=
  match s with
  | String c s' =>
      if is_digit c then let '(d, r) := digits_prefix s' in (String c d, r)
      else (EmptyString, s)
  | EmptyString => (EmptyString, EmptyString)
  end.

(** [portInfo.match(/:(\d+)\//)], the captured group of the leftmost match. *)
Fixpoint port_match (s : string) : option string :=
  match s with
  | EmptyString => None
  | String c s' =>
      if Ascii.eqb c ":"%char then
        match digits_prefix s' with
        | (String d ds, String sl _) =>
            if Ascii.eqb sl "/"%char then Some (String d ds) else port_match s'
        | _ => port_match s'
        end
      else port_match s'
  end.

(** The loop over the rows of [kubectl get services]: the last row named
    [<projectName>-service] or [web-service] with a port match gives the
    port. A matching row without a fifth column makes [portInfo.match] throw
    inside the callback; the model ends the run there with that error. *)
Fixpoint service_port (projectName : string) (rows : list string) (acc : option string)
    : res (option string) :=
  match rows with
  | [] => Ok acc
  | row :: r =>
      let columns := JS.split_ws row in
      let serviceName := match nth_error columns 0 with Some n => n | None => EmptyString end in
      if String.eqb serviceName (projectName ++ "-service") || String.eqb serviceName "web-service"
      then match nth_error columns 4 with
           | None => Throw (TypeError "Cannot read properties of undefined (reading 'match')")
           | Some portInfo =>
               service_port projectName r
                 (match port_match portInfo with Some p => Some p | None => acc end)
           end
      else service_port projectName r acc
  end.

Definition status_or_undefined (s : option string) : string :=
  match s with Some x => x | None => "undefined" end.

(** [exec('kubectl get pods', ...)] after the readiness wait. *)
Definition report_pods (out : exec_result) : M unit :=
  emit (Exec "kubectl get pods") ;;;
  match out with
  | ExecErr stderr => log ("Error getting pods: " ++ stderr) ;;; throw (ExecFailed stderr)
  | ExecOk stdout =>
      log ("Pods status:" ++ nl ++ stdout) ;;;
      for_each (pod_rows stdout) (fun row =>
        let st := pod_status row in
        if match st with Some x => String.eqb x "Running" | None => false end then ret tt
        else log ("Pod " ++ status_or_undefined (nth_error (JS.split_ws row) 0)
                  ++ " is in status " ++ status_or_undefined st))
  end.

(** [exec('kubectl get services', ...)] *)
Definition report_services (projectName : string) (out : exec_result) : M unit :=
  emit (Exec "kubectl get services") ;;;
  match out with
  | ExecErr stderr => log ("Error getting services: " ++ stderr) ;;; throw (ExecFailed stderr)
  | ExecOk stdout =>
      log ("Services status:" ++ nl ++ stdout) ;;;
      servicePort <- lift (service_port projectName (pod_rows stdout) None) ;;
      match servicePort with
      | Some p => log ("Service is exposed on port: " ++ p)
      | None => log "Could not determine the service port."
      end
  end.

Definition no_yaml_msg : string :=
  "No Kubernetes YAML files found. Generating default YAML files...".

(** The branch of [deployKubernetes] taken when both lists are empty. *)
Definition fabricate_if_none (cwd projectName : string) (yamls : list string * list string)
    : M (list string * list string) :=
  let '(serviceYAMLs, deploymentYAMLs) := yamls in
  if (length serviceYAMLs =? 0)%nat && (length deploymentYAMLs =? 0)%nat then
    log no_yaml_msg ;;;
    generateKubernetesYAML cwd projectName "latest" ;;;
    ret (app serviceYAMLs [Path.join cwd (projectName ++ "-service.yaml")],
         app deploymentYAMLs [Path.join cwd (projectName ++ "-deployment.yaml")])
  else ret yamls.

(** From the apply loops to the end of [deployKubernetes]. *)
Definition apply_and_report (env : kube_env) (projectName projectPath : string)
    (yamls : list string * list string) : M unit :=
  let '(serviceYAMLs, deploymentYAMLs) := yamls in
  for_each deploymentYAMLs (apply_yaml "deployment" "Deployment" projectPath (kubectl_apply env)) ;;;
  for_each serviceYAMLs (apply_yaml "service" "Service" projectPath (kubectl_apply env)) ;;;
  waitForPodsReady "default" 300 (poll_start env) (poll_clock env) (pods_sample env) ;;;
  log "Checking the status of pods and services..." ;;;
  report_pods (get_pods env) ;;;
  report_services projectName (get_services env).

(** [err.stack]: its first line (the frames are not modelled). *)
Definition err_stack (e : err) : string := "Error: " ++ err_message e.

(** [deployKubernetes(projectName, projectPath)]; [cwd] is [process.cwd()]. *)
Definition deployKubernetes (cwd : string) (env : kube_env) (projectName projectPath : string)
    : M unit :=
  rethrow_with (fun e => [Log ("Failed to deploy on Kubernetes: " ++ err_stack e)])
    (if String.eqb projectPath EmptyString
     then throw (InvalidPath "projectPath is undefined or invalid.")
     else
       updateWebDeploymentImage projectPath projectName "latest" ;;;
       log ("Starting deployment to Kubernetes for project: " ++ projectName
            ++ " at path: " ++ projectPath) ;;;
       yamls <- scanYAMLFiles projectPath ;;
       log ("Service YAMLs found: " ++ stringify_strings (fst yamls)) ;;;
       log ("Deployment YAMLs found: " ++ stringify_strings (snd yamls)) ;;;
       yamls' <- fabricate_if_none cwd projectName yamls ;;
       apply_and_report env projectName projectPath yamls').

(** The [k8s] branch of the [scan] command of the CLI: the image tag the
    operator entered is in scope but [deployKubernetes(projectName,
    projectPath)] is called without it. *)
Definition cli_deploy_k8s (cwd : string) (env : kube_env)
    (projectPath projectName imageTag : string) : M unit :=
  deployKubernetes cwd env projectName projectPath.

End Kubernetes.

(** ** The local/remote run driver *)

(** [${v}] of an optional argument (default [null]). *)
Definition opt_arg (v : option string) : string :=
  match v with Some s => s | None => "null" end.

(** [remote ? ... : ...]: [null] and the empty string are falsy. *)
Definition opt_truthy (v : option string) : bool :=
  match v with Some s => negb (String.eqb s EmptyString) | None => false end.

Definition docker_run_cmd (projectName imageTag : string) (remote user : option string) : string :=
  if opt_truthy remote
  then "ssh " ++ opt_arg user ++ "@" ++ opt_arg remote ++ " "
       ++ quote ("docker run -d -p 8000:8000 " ++ projectName ++ ":" ++ imageTag)
  else "docker run -d -p 8000:8000 " ++ projectName ++ ":" ++ imageTag.

(** [deployDocker(projectPath, projectName, imageTag, remote, user, password)]:
    the body up to its end. [exec(command, callback)] starts the command and
    returns at once; the callback is not awaited. *)
Definition deployDocker (projectPath projectName imageTag : string)
    (remote user password : option string) : M unit :=
  rethrow_with (fun e => [Log ("Failed to deploy Docker image: " ++ err_message e)])
    (let command := docker_run_cmd projectName imageTag remote user in
     log ("Deploying with command: " ++ command) ;;;
     emit (Exec command)).

(** The callback of that [exec], run when the command ends: its events, and
    the error it throws. Thrown from an [exec] callback, the error is an
    uncaught exception of the process, outside any promise of the driver. *)
Definition deployDocker_callback (result : exec_result) : list ev * option err :=
  match result with
  | ExecErr stderr => ([Log ("Error deploying Docker image: " ++ stderr)], Some (ExecFailed stderr))
  | ExecOk stdout => ([Log ("Docker image deployed successfully. Output: " ++ stdout)], None)
  end.

(** A whole run: the promise returned by [deployDocker] settles when its body
    ends; if the command was issued, its callback runs later, with the
    command's result. *)
Record docker_run : Type := mkDockerRun {
  run_world : world;
  run_events : list ev;
  run_outcome : res unit;
  callback_events : list ev;
  uncaught : option err
}.

Definition issued (cmd : string) (evs : list ev) : bool :=
  existsb (fun e => match e with Exec c => String.eqb c cmd | _ => false end) evs.

Definition deployDocker_run (projectPath projectName imageTag : string)
    (remote user password : option string) (result : exec_result) (w : world) : docker_run :=
  match deployDocker projectPath projectName imageTag remote user password w with
  | (w', evs, r) =>
      if issued (docker_run_cmd projectName imageTag remote user) evs
      then let '(cevs, u) := deployDocker_callback result in mkDockerRun w' evs r cevs u
      else mkDockerRun w' evs r [] None
  end.


Section Kubernetes2.
Variable yaml_load : string -> option yval.
Variable yaml_dump : yval -> string.

(** [deployKubernetes] with the branch that fabricates default manifests
    removed. *)
Definition deployKubernetes_no_fabrication (env : kube_env) (projectName projectPath : string)
    : M unit :=
  rethrow_with (fun e => [Log ("Failed to deploy on Kubernetes: " ++ err_stack e)])
    (if String.eqb projectPath EmptyString
     then throw (InvalidPath "projectPath is undefined or invalid.")
     else
       updateWebDeploymentImage yaml_load yaml_dump projectPath projectName "latest" ;;;
       log ("Starting deployment to Kubernetes for project: " ++ projectName
            ++ " at path: " ++ projectPath) ;;;
       yamls <- scanYAMLFiles projectPath ;;
       log ("Service YAMLs found: " ++ stringify_strings (fst yamls)) ;;;
       log ("Deployment YAMLs found: " ++ stringify_strings (snd yamls)) ;;;
       apply_and_report env projectName projectPath yamls).

End Kubernetes2.

(** Sample inputs. *)
Definition idle_env : kube_env :=
  mkKubeEnv (fun _ => ExecOk EmptyString) 0 (fun i => (6000 * Z.of_nat i)%Z)
            (fun _ => ExecOk EmptyString) (ExecOk EmptyString) (ExecOk EmptyString).

Definition sample_web_deployment : yval :=
  YMap [("apiVersion", YStr "apps/v1"); ("kind", YStr "Deployment");
        ("spec", YMap [("replicas", YNum 2);
                       ("template", YMap [("spec", YMap [("containers",
                          YSeq [YMap [("name", YStr "web"); ("image", YStr "web:1.0")]])])])])].

Definition web_project : world := mkWorld [File "web-deployment.yaml" "kind: Deployment"] [].

(** A clock that advances 6 s per test, and pod listings that show the pod
    running from the third sample on. *)
Definition sample_clock (i : nat) : Z := (6000 * Z.of_nat i)%Z.

Definition sample_pods (i : nat) : string :=
  "NAME READY STATUS RESTARTS AGE" ++ nl
  ++ "web-1 1/1 " ++ (if (i <? 2)%nat then "Pending" else "Running") ++ " 0 1m" ++ nl.

(** Steps that leave the world as it is. *)
Definition keeps {A} (m : M A) : Prop := forall w, fst (fst (m w)) = w.

(** A container after the loop body: what [container.image] and
    [container.imagePullPolicy] read. *)
Definition rewritten (img : string) (c : yval) : Prop :=
  yget (Some c) "image" = Ok (Some (YStr img))
  /\ yget (Some c) "imagePullPolicy" = Ok (Some (YStr "IfNotPresent")).

(** A Node.js project without any manifest. *)
Definition demo_project : world :=
  mkWorld [File "package.json" "{}"; File "index.js" "app.listen(3000)"] [].

(** Every row of a pod listing has status [Running]: the condition as the
    specification words it. *)
Definition all_running (out : string) : Prop :=
  Forall (fun row => pod_status row = Some "Running") (pod_rows out).

(** ** The Gemfile parser *)

(** The character class of [/[',]/]. *)
Definition is_gem_sep (c : ascii) : bool := Ascii.eqb c "'"%char || Ascii.eqb c ","%char.

(** [s.split(re)] for a regular expression that matches exactly one
    character of a class [p]. *)
Fixpoint split_class_acc (p : ascii -> bool) (s cur : string) : list string :=
  match s with
  | EmptyString => [JS.rev_str cur]
  | String c s' =>
      if p c then JS.rev_str cur :: split_class_acc p s' EmptyString
      else split_class_acc p s' (String c cur)
  end.

Definition split_class (p : ascii -> bool) (s : string) : list string :=
  split_class_acc p s EmptyString.

Definition newline : ascii := ascii_of_nat 10.

(** [undefined.trim()] *)
Definition trim_undefined_err : err :=
  TypeError "Cannot read properties of undefined (reading 'trim')".

(** The callback of the [map]: [parts = line.split(/[',]/)] and
    [{ name: parts[1].trim(), version: parts[2].trim() }]. *)
Definition parse_gem_line (line : string) : res (string * string) :=
  let parts := split_class is_gem_sep line in
  match nth_error parts 1, nth_error parts 2 with
  | Some n, Some v => Ok (JS.trim n, JS.trim v)
  | _, _ => Throw trim_undefined_err
  end.

(** [xs.map(f)] for a callback that may throw: the first throw ends it. *)
Fixpoint map_res {A B} (f : A -> res B) (l : list A) : res (list B) :=
  match l with
  | [] => Ok []
  | x :: r =>
      match f x with
      | Throw e => Throw e
      | Ok y => match map_res f r with Throw e => Throw e | Ok ys => Ok (y :: ys) end
      end
  end.

(** The object [{ name, version }]. *)
Definition gem_json (d : string * string) : json :=
  JObj [("name", JStr (fst d)); ("version", JStr (snd d))].

Section Gemfile.

Variable json_stringify : json -> string.

(** [parseGemfile(gemfileContent)]: a plain function; the two [log] calls
    are not awaited, and a [TypeError] of the [map] leaves it synchronously. *)
Definition parseGemfile (gemfileContent : string) : M unit :=
  log "Starting to parse Gemfile..." ;;;
  dependencies <- lift (map_res parse_gem_line
                          (filter (String.prefix "gem") (JS.split_char newline gemfileContent))) ;;
  log ("Parsed dependencies from Gemfile: " ++ json_stringify (JArr (map gem_json dependencies))).

End Gemfile.

(** ** The Nginx configuration *)

Definition nginx_config : string :=
  nl ++ lines
    ["server {"; "    listen 80;"; "    server_name localhost;"; "";
     "    location / {"; "        proxy_pass http://localhost:4000;";
     "        proxy_set_header Host $host;";
     "        proxy_set_header X-Real-IP $remote_addr;";
     "        proxy_set_header X-Forwarded-For $proxy_add_x_forwarded_for;";
     "        proxy_set_header X-Forwarded-Proto $scheme;";
     "    }"; "}"].

(** [generateNginxConfig(projectName)]: [fs.writeFile(`${projectName}.conf`)]
    resolves the name against [process.cwd()]. *)
Definition generateNginxConfig (cwd projectName : string) : M unit :=
  write_cwd_file (Path.join cwd (projectName ++ ".conf")) (JS.trim nginx_config) ;;;
  log "Generated Nginx configuration file.".

Definition nginx_cp_cmd (projectName : string) : string :=
  "sudo cp " ++ projectName ++ ".conf /etc/nginx/sites-available/".
Definition nginx_ln_cmd (projectName : string) : string :=
  "sudo ln -s /etc/nginx/sites-available/" ++ projectName ++ ".conf /etc/nginx/sites-enabled/".
Definition nginx_reload_cmd : string := "sudo nginx -s reload".

(** [deployNginxConfig(projectName)]: the body up to its end.
    [await exec(...)] awaits the child process object, which is not a
    promise, so the body goes on at once; the callbacks are not awaited. *)
Definition deployNginxConfig (projectName : string) : M unit :=
  rethrow_with (fun e => [Log ("Failed to deploy Nginx configuration: " ++ err_message e)])
    (emit (Exec (nginx_cp_cmd projectName))).

(** The three nested callbacks, run when the commands end: their events, and
    the error thrown out of a callback (an uncaught exception). *)
Definition deployNginxConfig_callbacks (projectName : string) (cp ln reload : exec_result)
    : list ev * option err :=
  match cp with
  | ExecErr stderr => ([Log ("Error copying Nginx config: " ++ stderr)], Some (ExecFailed stderr))
  | ExecOk stdout =>
      let evs0 := [Log ("Nginx config copied: " ++ stdout); Exec (nginx_ln_cmd projectName)] in
      match ln with
      | ExecErr errout =>
          (app evs0 [Log ("Error creating symlink for Nginx config: " ++ errout)],
           Some (ExecFailed errout))
      | ExecOk _ =>
          let evs1 := app evs0 [Exec nginx_reload_cmd] in
          match reload with
          | ExecErr reloadErrOut =>
              (app evs1 [Log ("Error reloading Nginx: " ++ reloadErrOut)],
               Some (ExecFailed reloadErrOut))
          | ExecOk _ => (app evs1 [Log "Nginx configuration applied and server reloaded."], None)
          end
      end
  end.

(** A whole run, as for [deployDocker]: the settled promise, then the
    callbacks of the commands. *)
Definition deployNginxConfig_run (projectName : string) (cp ln reload : exec_result) (w : world)
    : docker_run :=
  match deployNginxConfig projectName w with
  | (w', evs, r) =>
      if issued (nginx_cp_cmd projectName) evs
      then let '(cevs, u) := deployNginxConfig_callbacks projectName cp ln reload in
           mkDockerRun w' evs r cevs u
      else mkDockerRun w' evs r [] None
  end.

Definition exec_ok (r : exec_result) : bool :=
  match r with ExecOk _ => true | ExecErr _ => false end.

(** Every character of a string satisfies [p]. *)
Fixpoint str_forall (p : ascii -> bool) (s : string) : bool :=
  match s with
  | EmptyString => true
  | String c s' => p c && str_forall p s'
  end.

(** A character that is neither a separator of [/[',]/] nor a newline. *)
Definition plain_char (c : ascii) : bool := negb (is_gem_sep c) && negb (Ascii.eqb c newline).

(** The usual Gemfile line [gem 'name', 'version']. *)
Definition gem_line (g : string * string) : string :=
  "gem '" ++ fst g ++ "', '" ++ snd g ++ "'".

(** ** The [scan] command of the CLI *)

(** What the action shows: the events of the functions it calls, the
    [console.log] lines it prints itself, and the questions of [promptUser]. *)
Inductive cli_ev : Type :=
| CoreEv (e : ev)
| Console (msg : string)
| Ask (question : string).

(** How the action's promise stands: settled, rejected, or waiting for an
    answer that never comes (standard input is exhausted). *)
Inductive cres (A : Type) : Type :=
| CDone (a : A)
| CRejected (e : err)
| CWaiting (question : string).
Arguments CDone {A} a.
Arguments CRejected {A} e.
Arguments CWaiting {A} question.

(** The action: the world, and the answers still to be typed. *)
Definition CM (A : Type) : Type :=
  world * list string -> world * list string * list cli_ev * cres A.

Definition cbind {A B} (m : CM A) (k : A -> CM B) : CM B :=
  fun s =>
    match m s with
    | (w1, a1, evs1, CDone x) =>
        match k x (w1, a1) with (w2, a2, evs2, r) => (w2, a2, app evs1 evs2, r) end
    | (w1, a1, evs1, CRejected e) => (w1, a1, evs1, CRejected e)
    | (w1, a1, evs1, CWaiting q) => (w1, a1, evs1, CWaiting q)
    end.

Notation "x <~ m ;; k" := (cbind m (fun x => k))
  (at level 61, m at next level, right associativity).
Notation "m ;~ k" := (cbind m (fun _ => k))
  (at level 61, right associativity).

Definition cret {A} (a : A) : CM A := fun '(w, ans) => (w, ans, [], CDone a).

Definition console (msg : string) : CM unit := fun '(w, ans) => (w, ans, [Console msg], CDone tt).

(** [promptUser(question)]: readline prints the question and resolves with
    the next line typed. *)
Definition promptUser (question : string) : CM string :=
  fun '(w, ans) =>
    match ans with
    | [] => (w, [], [Ask question], CWaiting question)
    | a :: rest => (w, rest, [Ask question], CDone a)
    end.

(** [await f(...)] of one of the exported functions. *)
Definition call {A} (m : M A) : CM A :=
  fun '(w, ans) =>
    match m w with
    | (w', evs, Ok a) => (w', ans, map CoreEv evs, CDone a)
    | (w', evs, Throw e) => (w', ans, map CoreEv evs, CRejected e)
    end.

(** What the functions the action calls meet: [fs.stat] of the project
    path, the exit code of [docker build], [process.cwd()] and [kubectl]. *)
Record cli_env : Type := mkCliEnv {
  scan_kind : path_kind;
  build_exit : Z;
  cwd : string;
  kube : kube_env
}.

Section CLI.

Variable json_parse : string -> option json.
Variable json_stringify : json -> string.
Variable yaml_load : string -> option yval.
Variable yaml_dump : yval -> string.

Definition deploy_question : string := "Do you want to deploy the image? (yes/no): ".
Definition type_question : string :=
  "Deploy locally, remotely, to Kubernetes, or with Nginx? (local/remote/k8s/nginx): ".

(** The part of the action after the build: the deployment questions and
    the call of the chosen driver. *)
Definition deploy_prompt (env : cli_env) (projectPath projectName imageTag : string) : CM unit :=
  deployOption <~ promptUser deploy_question ;;
  if String.eqb (JS.toLowerCase deployOption) "yes" then
    deployType <~ promptUser type_question ;;
    if String.eqb deployType "local" then
      call (deployDocker projectPath projectName imageTag None None None)
    else if String.eqb deployType "remote" then
      remoteHost <~ promptUser "Enter the remote Docker host: " ;;
      remoteUser <~ promptUser "Enter the username for the remote host: " ;;
      remotePassword <~ promptUser "Enter the password for the remote host: " ;;
      call (deployDocker projectPath projectName imageTag
              (Some remoteHost) (Some remoteUser) (Some remotePassword))
    else if String.eqb deployType "k8s" then
      call (deployKubernetes yaml_load yaml_dump (cwd env) (kube env) projectName projectPath)
    else if String.eqb deployType "nginx" then
      call (deployNginxConfig projectName)
    else console "Invalid deployment option. Skipping deployment."
  else console "Skipping deployment.".

(** The action of [program.command('scan')] for the argument [projectPath].
    The [exec] callbacks of [deployDocker] and [deployNginxConfig] run after
    the action has settled ([deployDocker_run], [deployNginxConfig_run]). *)
Definition scan_action (env : cli_env) (projectPath : string) : CM unit :=
  projectName <~ promptUser "Enter the name for the Docker image: " ;;
  imageTag <~ promptUser "Enter the tag for the Docker image: " ;;
  console ("User entered Docker image name: " ++ projectName) ;~
  console ("User entered Docker image tag: " ++ imageTag) ;~
  call (scanProject json_parse json_stringify projectPath (scan_kind env)
          projectName imageTag (build_exit env)) ;~
  console "Docker image build complete." ;~
  deploy_prompt env projectPath projectName imageTag.

End CLI.

(** What the action shows up to the end of the build, for the answers
    [projectName] and [imageTag] and the events of [scanProject]. *)
Definition scan_prefix (projectName imageTag : string) (scan_evs : list ev) : list cli_ev :=
  app [Ask "Enter the name for the Docker image: "; Ask "Enter the tag for the Docker image: ";
       Console ("User entered Docker image name: " ++ projectName);
       Console ("User entered Docker image tag: " ++ imageTag)]
      (app (map CoreEv scan_evs) [Console "Docker image build complete."]).

(** Steps that leave the files of the working directory as they are. *)
Definition keeps_cwd {A} (m : M A) : Prop := forall w, cwd_files (fst (fst (m w))) = cwd_files w.

(** The commands in an event trace, the command of the apply loops for a
    path, and the paths those loops hand to [kubectl] (non-empty, and
    existing when the loop starts). *)
Definition is_exec (e : ev) : bool := match e with Exec _ => true | _ => false end.

Definition apply_cmd (f : string) : ev := Exec ("kubectl apply -f " ++ quote f).

Definition applied (projectPath : string) (w : world) (f : string) : bool :=
  negb (String.eqb f EmptyString)
  && match snd (file_exists projectPath f w) with Ok b => b | Throw _ => false end.

(** * Proofs *)

(** ** Checks of the JavaScript string operations *)

Example js_lower : JS.toLowerCase "App.DockerFile" = "app.dockerfile".
Proof. reflexivity. Qed.
Example js_ends : JS.endsWith "/p/web-deployment.yaml" "deployment.yaml" = true.
Proof. reflexivity. Qed.
Example js_replace : JS.replace "a EXPOSE 3000 b EXPOSE 3000" "EXPOSE 3000" "EXPOSE 8000"
  = "a EXPOSE 8000 b EXPOSE 3000".
Proof. reflexivity. Qed.
Example js_trim : JS.trim "  x y
" = "x y".
Proof. reflexivity. Qed.
Example js_split_ws : JS.split_ws " web-1  1/1 Running" = [""; "web-1"; "1/1"; "Running"].
Proof. reflexivity. Qed.

Example path_dirname : Path.dirname (Path.join "/proj/sub" "Dockerfile") = "/proj/sub".
Proof. reflexivity. Qed.

Example build_nested :
  let w := mkWorld [File "README.md" "x"; Dir "docker" [File "dockerfile" "FROM node"]] [] in
  buildDockerImage "/proj" "demo" "latest" 0 w =
  (w, [Log "Starting Docker image build for project: demo with tag: latest";
       Log "Using Dockerfile located at: /proj/docker/dockerfile";
       Log "Using build context: /proj/docker";
       Exec "docker build -t demo:latest /proj/docker";
       Log "Docker image 'demo:latest' built successfully."], Ok tt).
Proof. reflexivity. Qed.

(** ** Lemmas on strings, paths and walks *)

Lemma str_app_assoc (a b c : string) : (a ++ b) ++ c = a ++ b ++ c.
Proof. induction a; simpl; congruence. Qed.

Lemma str_app_nil_r (a : string) : a ++ EmptyString = a.
Proof. induction a; simpl; congruence. Qed.

Lemma rev_str_app (a b : string) : JS.rev_str (a ++ b) = JS.rev_str b ++ JS.rev_str a.
Proof.
  induction a; simpl.
  - now rewrite str_app_nil_r.
  - rewrite IHa. apply str_app_assoc.
Qed.

Lemma rev_str_involutive (a : string) : JS.rev_str (JS.rev_str a) = a.
Proof. induction a; simpl; [reflexivity|]. rewrite rev_str_app, IHa. reflexivity. Qed.

Lemma no_slash_rev (s : string) : no_slash s = true -> no_slash (JS.rev_str s) = true.
Proof.
  induction s as [|c s IH]; simpl; [auto|].
  intros H. apply andb_prop in H as [H1 H2].
  assert (Happ : forall a b, no_slash a = true -> no_slash b = true -> no_slash (a ++ b) = true).
  { induction a as [|x a IHa]; simpl; [auto|]. intros b Ha Hb.
    apply andb_prop in Ha as [Ha1 Ha2]. rewrite Ha1, (IHa b Ha2 Hb). reflexivity. }
  apply Happ; [auto|]. simpl. rewrite H1. reflexivity.
Qed.

Lemma after_slash_app (s t : string) :
  no_slash s = true -> Path.after_slash (s ++ t) = Path.after_slash t.
Proof.
  induction s as [|c s IH]; simpl; [auto|].
  intros H. apply andb_prop in H as [H1 H2].
  apply negb_true_iff in H1. rewrite H1. auto.
Qed.

Lemma dirname_join (d n : string) :
  d <> EmptyString -> no_slash n = true -> Path.dirname (Path.join d n) = d.
Proof.
  intros Hd Hn. unfold Path.dirname, Path.join.
  rewrite !rev_str_app. simpl.
  rewrite str_app_assoc. rewrite after_slash_app by (now apply no_slash_rev).
  simpl. rewrite rev_str_involutive. destruct d; [congruence|reflexivity].
Qed.

Lemma find_app {A} (p : A -> bool) (l1 l2 : list A) :
  find p (l1 ++ l2) = match find p l1 with Some x => Some x | None => find p l2 end.
Proof. induction l1; simpl; [reflexivity|]. destruct (p a); auto. Qed.

(** [findFileRecursively] returns the first file of the depth-first walk
    whose lower-cased name is the lower-cased searched name. *)
Lemma find_in_spec (lname dir : string) (l : list entry) :
  find_in lname dir l =
  option_map join_pair (find (name_is lname) (files_dfs dir l)).
Proof.
  revert dir.
  induction l as [|e l IHl] using list_ind; intros dir; [reflexivity|].
  simpl. unfold files_dfs in *. simpl. rewrite find_app.
  assert (He : forall e dir, find_entry lname dir e =
            option_map join_pair (find (name_is lname) (files_entry dir e))).
  { clear. intros e. induction e as [n c | n ch IHch] using entry_ind'; intros dir; simpl.
    - unfold name_is; simpl. destruct (String.eqb (JS.toLowerCase n) lname); reflexivity.
    - generalize (Path.join dir n) as d. intros d.
      induction IHch as [|x ch Hx Hch IH]; [reflexivity|].
      simpl. rewrite find_app, Hx.
      destruct (find _ (files_entry d x)); simpl; auto. }
  rewrite He, IHl.
  destruct (find _ (files_entry dir e)); reflexivity.
Qed.

Lemma files_entry_dir_nonempty (e : entry) (dir : string) :
  dir <> EmptyString -> forall d n, In (d, n) (files_entry dir e) -> d <> EmptyString.
Proof.
  revert dir. induction e as [n0 c | n0 ch IHch] using entry_ind'; intros dir Hdir d n Hin; simpl in Hin.
  - destruct Hin as [H|[]]. inversion H; subst; auto.
  - apply in_flat_map in Hin as [x [Hx Hin]].
    rewrite Forall_forall in IHch.
    apply (IHch x Hx (Path.join dir n0)) in Hin; auto.
    unfold Path.join. destruct dir; simpl; congruence.
Qed.

Lemma files_dfs_dir_nonempty (l : list entry) (dir : string) :
  dir <> EmptyString -> forall d n, In (d, n) (files_dfs dir l) -> d <> EmptyString.
Proof.
  intros Hdir d n Hin. apply in_flat_map in Hin as [x [_ Hin]].
  eapply files_entry_dir_nonempty; eauto.
Qed.

Lemma buildDockerImage_eq (projectPath projectName imageTag : string) (code : Z) (w : world) :
  buildDockerImage projectPath projectName imageTag code w =
  let start := Log ("Starting Docker image build for project: " ++ projectName
                    ++ " with tag: " ++ imageTag) in
  let fail e := Log ("Failed to build Docker image for " ++ projectName ++ ":" ++ imageTag
                     ++ ": " ++ err_message e) in
  match find is_dockerfile_name (files_dfs projectPath (proj w)) with
  | None => (w, [start; fail DockerfileNotFound], Throw DockerfileNotFound)
  | Some f =>
      let p := join_pair f in
      let ctx := Path.dirname p in
      let pre := [start; Log ("Using Dockerfile located at: " ++ p);
                  Log ("Using build context: " ++ ctx);
                  Exec (docker_build_cmd projectName imageTag ctx)] in
      if Z.eqb code 0 then
        (w, app pre [Log ("Docker image '" ++ projectName ++ ":" ++ imageTag
                         ++ "' built successfully.")], Ok tt)
      else
        (w, app pre [Log ("Docker build failed with exit code " ++ Z_to_string code ++ ".");
                    fail (DockerBuildFailed code)], Throw (DockerBuildFailed code))
  end.
Proof.
  unfold buildDockerImage, log_and_rethrow, bind, log, emit, get_world, throw,
    findFileRecursively.
  rewrite find_in_spec.
  change (JS.toLowerCase "Dockerfile") with "dockerfile".
  change (name_is "dockerfile") with is_dockerfile_name.
  destruct (find is_dockerfile_name (files_dfs projectPath (proj w))) as [f|]; simpl.
  - destruct (Z.eqb code 0); cbn; reflexivity.
  - reflexivity.
Qed.

(** ** C2: the image builder's lookup of the build file *)

(** C2 (amended). [buildDockerImage] throws "Dockerfile not found" exactly
    when no file below the project is named "Dockerfile" up to case (the
    name must equal it, a mere suffix does not count); otherwise the first
    such file of the depth-first walk is used and its containing directory
    is the build context of the issued [docker build] command, and the build
    succeeds exactly when docker exits with 0. *)
Theorem build_file_lookup (projectPath projectName imageTag : string) (code : Z) (w : world)
  (Hp : projectPath <> EmptyString)
  (Hnames : forall d n, In (d, n) (files_dfs projectPath (proj w)) -> no_slash n = true) :
  match buildDockerImage projectPath projectName imageTag code w with
  | (w', evs, r) =>
      (r = Throw DockerfileNotFound <->
         ~ exists d n, In (d, n) (files_dfs projectPath (proj w))
                       /\ JS.toLowerCase n = "dockerfile")
      /\ (forall d n, find is_dockerfile_name (files_dfs projectPath (proj w)) = Some (d, n) ->
            In (Exec (docker_build_cmd projectName imageTag d)) evs
            /\ (r = Ok tt <-> code = 0%Z))
  end.
Proof.
  rewrite buildDockerImage_eq. cbv zeta.
  destruct (find is_dockerfile_name (files_dfs projectPath (proj w))) as [[d n]|] eqn:Hf.
  - apply find_some in Hf as [Hin Hname].
    unfold join_pair; simpl fst; simpl snd.
    rewrite dirname_join by (eauto using files_dfs_dir_nonempty).
    assert (Hex : exists d n, In (d, n) (files_dfs projectPath (proj w))
                              /\ JS.toLowerCase n = "dockerfile").
    { exists d, n. split; [exact Hin|]. now apply String.eqb_eq in Hname. }
    destruct (Z.eqb code 0) eqn:Hc.
    + split; [split; [discriminate | intros Hn; contradiction]|].
      intros d' n' Heq. inversion Heq; subst d' n'.
      split; [simpl; tauto|]. apply Z.eqb_eq in Hc. split; auto.
    + split; [split; [discriminate | intros Hn; contradiction]|].
      intros d' n' Heq. inversion Heq; subst d' n'.
      split; [simpl; tauto|]. apply Z.eqb_neq in Hc. split; [discriminate|contradiction].
  - split.
    + split; [|reflexivity]. intros _ [d [n [Hin Hn]]].
      pose proof (find_none _ _ Hf (d, n) Hin) as H.
      unfold is_dockerfile_name, name_is in H; simpl in H.
      rewrite Hn in H. discriminate.
    + intros d n Heq. discriminate.
Qed.

(** C2 witness: a project with a nested build file. *)
Lemma build_file_lookup_witness :
  "/proj" <> EmptyString
  /\ (forall d n, In (d, n) (files_dfs "/proj"
                     [File "index.js" ""; Dir "docker" [File "Dockerfile" "FROM node"]]) ->
                  no_slash n = true)
  /\ match buildDockerImage "/proj" "demo" "latest" 0
             (mkWorld [File "index.js" ""; Dir "docker" [File "Dockerfile" "FROM node"]] []) with
     | (w', evs, r) =>
         (r = Throw DockerfileNotFound <->
            ~ exists d n, In (d, n) (files_dfs "/proj"
                             [File "index.js" ""; Dir "docker" [File "Dockerfile" "FROM node"]])
                          /\ JS.toLowerCase n = "dockerfile")
         /\ (forall d n, find is_dockerfile_name (files_dfs "/proj"
                  [File "index.js" ""; Dir "docker" [File "Dockerfile" "FROM node"]])
                  = Some (d, n) ->
               In (Exec (docker_build_cmd "demo" "latest" d)) evs /\ (r = Ok tt <-> 0%Z = 0%Z))
     end.
Proof.
  assert (Hp : "/proj" <> EmptyString) by discriminate.
  assert (Hn : forall d n, In (d, n) (files_dfs "/proj"
                 [File "index.js" ""; Dir "docker" [File "Dockerfile" "FROM node"]]) ->
               no_slash n = true).
  { intros d n Hin. simpl in Hin.
    destruct Hin as [H|[H|[]]]; inversion H; reflexivity. }
  split; [exact Hp|]. split; [exact Hn|].
  exact (build_file_lookup "/proj" "demo" "latest" 0
           (mkWorld [File "index.js" ""; Dir "docker" [File "Dockerfile" "FROM node"]] [])
           Hp Hn).
Defined.

(** C2 counterexample: the only build file is "app.Dockerfile", whose name
    ends in "dockerfile" up to case; the builder still throws
    "Dockerfile not found". *)
Lemma build_file_suffix_not_found :
  JS.endsWith (JS.toLowerCase "app.Dockerfile") "dockerfile" = true
  /\ (let '(_, _, r) := buildDockerImage "/proj" "demo" "latest" 0
                         (mkWorld [File "app.Dockerfile" "FROM node"] []) in
      r = Throw DockerfileNotFound).
Proof. split; reflexivity. Qed.

(** ** Lemmas on the scan *)

Lemma scan_loop_eq (files : list string) (df pj : bool) (w : world) :
  scan_loop files df pj w =
  (w, map scan_log files, Ok (df || existsb is_df files, pj || existsb is_pj files)).
Proof.
  revert df pj. induction files as [|f files IH]; intros df pj.
  - cbn. rewrite !orb_false_r. reflexivity.
  - cbn [scan_loop].
    change (JS.endsWith (JS.toLowerCase f) "dockerfile") with (is_df f).
    assert (Hpj' : is_pj f = negb (is_df f) && JS.endsWith f "package.json") by reflexivity.
    destruct (is_df f) eqn:Hdf; [|destruct (JS.endsWith f "package.json") eqn:Hpj].
    + assert (Hs : scan_log f = Log ("Found Dockerfile: " ++ f))
        by (unfold scan_log; rewrite Hdf; reflexivity).
      unfold bind, log, emit; cbv beta iota. rewrite IH. cbn [map existsb app].
      rewrite Hs, Hpj', Hdf; destruct df, pj; reflexivity.
    + assert (Hs : scan_log f = Log ("Found package.json: " ++ f))
        by (unfold scan_log; rewrite Hdf, Hpj; reflexivity).
      unfold bind, log, emit; cbv beta iota. rewrite IH. cbn [map existsb app].
      rewrite Hs, Hpj', Hdf; destruct df, pj; reflexivity.
    + assert (Hs : scan_log f = Log ("Found file: " ++ f))
        by (unfold scan_log; rewrite Hdf, Hpj; reflexivity).
      unfold bind, log, emit; cbv beta iota. rewrite IH. cbn [map existsb app].
      rewrite Hs, Hpj', Hdf; destruct df, pj; reflexivity.
Qed.

Lemma scan_entry_files (dir : string) (e : entry) :
  scan_entry dir e = map join_pair (files_entry dir e).
Proof.
  revert dir. induction e as [n c | n ch IHch] using entry_ind'; intros dir; [reflexivity|].
  simpl. generalize (Path.join dir n) as d. intros d.
  induction IHch as [|x ch Hx Hch IH]; [reflexivity|].
  simpl. rewrite map_app, Hx, IH. reflexivity.
Qed.

Lemma scanEntireDirectory_files (dir : string) (l : list entry) :
  scanEntireDirectory dir l = map join_pair (files_dfs dir l).
Proof.
  unfold scanEntireDirectory, files_dfs. induction l as [|e l IH]; [reflexivity|].
  simpl. rewrite map_app, scan_entry_files, IH. reflexivity.
Qed.

Lemma prefix_app_slash (s a b : string) :
  no_slash s = true -> String.prefix s (a ++ String Path.slash b) = true ->
  String.prefix s a = true.
Proof.
  revert s. induction a as [|x a IH]; intros s Hs Hp.
  - destruct s as [|c s]; [reflexivity|]. simpl in Hs, Hp.
    apply andb_prop in Hs as [Hc _]. apply negb_true_iff in Hc.
    destruct (ascii_dec c Path.slash) as [->|]; [|discriminate].
    rewrite Ascii.eqb_refl in Hc. discriminate.
  - destruct s as [|c s]; [reflexivity|]. simpl in Hs, Hp |- *.
    apply andb_prop in Hs as [_ Hs].
    destruct (ascii_dec c x); [|discriminate]. eauto.
Qed.

(** A suffix without slash of a joined path is a suffix of its last name. *)
Lemma endsWith_join (d n suf : string) :
  no_slash suf = true -> JS.endsWith (Path.join d n) suf = true -> JS.endsWith n suf = true.
Proof.
  unfold JS.endsWith, Path.join. intros Hs Hp.
  rewrite !rev_str_app in Hp. simpl in Hp.
  rewrite str_app_assoc in Hp. simpl in Hp.
  eapply prefix_app_slash; [now apply no_slash_rev|]. exact Hp.
Qed.

Lemma prefix_app (s t : string) : String.prefix s (s ++ t) = true.
Proof.
  induction s as [|c s IH]; [destruct t; reflexivity|]. simpl.
  destruct (ascii_dec c c); [exact IH|congruence].
Qed.

Lemma toLowerCase_app (a b : string) :
  JS.toLowerCase (a ++ b) = JS.toLowerCase a ++ JS.toLowerCase b.
Proof. induction a; simpl; congruence. Qed.

Lemma endsWith_app (a suf : string) : JS.endsWith (a ++ suf) suf = true.
Proof. unfold JS.endsWith. rewrite rev_str_app. apply prefix_app. Qed.

Lemma find_child_files (n dir : string) (l : list entry) (e : entry) :
  find_child n l = Some e -> forall c, e = File n c -> In (dir, n) (files_dfs dir l).
Proof.
  induction l as [|x l IH]; simpl; [discriminate|].
  destruct (String.eqb (entry_name x) n) eqn:Hn.
  - intros H c ->. inversion H; subst. unfold files_dfs. simpl. left. reflexivity.
  - intros H c ->. unfold files_dfs in *. simpl. apply in_or_app. right. eauto.
Qed.

Lemma in_map_scan_log (x : ev) (files : list string) :
  In x (map scan_log files) -> exists m, x = Log m.
Proof. intros H. apply in_map_iff in H as [f [<- _]]. eexists. reflexivity. Qed.

Lemma buildDockerImage_world (projectPath projectName imageTag : string) (code : Z) (w : world) :
  fst (fst (buildDockerImage projectPath projectName imageTag code w)) = w.
Proof.
  rewrite buildDockerImage_eq. cbv zeta.
  destruct (find is_dockerfile_name _); [destruct (Z.eqb code 0)|]; reflexivity.
Qed.

Lemma no_package_json (p : string) (l : list entry) :
  (forall d n, In (d, n) (files_dfs p l) -> JS.endsWith n "package.json" = false) ->
  existsb is_pj (scanEntireDirectory p l) = false.
Proof.
  intros Hnone. destruct (existsb is_pj _) eqn:E; [|reflexivity].
  apply existsb_exists in E as [x [Hin Hx]].
  rewrite scanEntireDirectory_files in Hin.
  apply in_map_iff in Hin as [[d n] [<- Hin]].
  unfold is_pj, join_pair in Hx. simpl in Hx. apply andb_prop in Hx as [_ Hx].
  apply endsWith_join in Hx; [|reflexivity].
  rewrite (Hnone d n Hin) in Hx. discriminate.
Qed.

Lemma root_dockerfile_found (p c : string) (l : list entry) :
  find_child "Dockerfile" l = Some (File "Dockerfile" c) ->
  existsb is_df (scanEntireDirectory p l) = true.
Proof.
  intros H. apply existsb_exists. exists (Path.join p "Dockerfile"). split.
  - rewrite scanEntireDirectory_files.
    apply (in_map join_pair (files_dfs p l) (p, "Dockerfile")).
    eapply find_child_files; eauto.
  - unfold is_df, Path.join. rewrite toLowerCase_app.
    replace (JS.toLowerCase ("/" ++ "Dockerfile")) with ("/" ++ "dockerfile") by reflexivity.
    rewrite <- str_app_assoc. apply endsWith_app.
Qed.

(** ** C3: a path that is not a directory *)

(** C3 counterexample: [scanProject] on an existing file returns normally
    (its promise resolves) instead of throwing a not-a-directory error. *)
Lemma scan_file_path_resolves :
  match scanProject (fun _ => None) (fun _ => EmptyString) "/proj/notes.txt" PFile
          "demo" "latest" 0 (mkWorld [] []) with
  | (_, _, r) => r = Ok tt
  end.
Proof. reflexivity. Qed.

(** C3 (amended). For every existing path that is not a directory,
    [scanProject] marks the spinner as failed ("Error: <path> is not a
    directory"), logs "Provided path is not a directory: <path>" and returns
    normally: nothing is scanned, generated or built, the world is left as it
    was, and no error reaches the caller. *)
Theorem scan_file_path_reported (json_parse : string -> option json)
  (json_stringify : json -> string) (projectPath projectName imageTag : string)
  (docker_exit : Z) (w : world) :
  scanProject json_parse json_stringify projectPath PFile projectName imageTag docker_exit w =
  (w, [Log ("Received projectName: " ++ projectName ++ ", imageTag: " ++ imageTag);
       Log ("Scanning directory: " ++ projectPath);
       SpinnerFail ("Error: " ++ projectPath ++ " is not a directory");
       Log ("Provided path is not a directory: " ++ projectPath)], Ok tt).
Proof. reflexivity. Qed.

(** ** C6: no package.json *)

(** C6. When no file below the project directory has a name ending
    (case-sensitively) in "package.json", [scanProject] reports the project
    type as undetermined (spinner failure "Unable to determine the project
    type"), generates no Dockerfile (no file write), runs no build (no
    command), leaves the world unchanged and returns normally. *)
Theorem scan_unknown_project_type (json_parse : string -> option json)
  (json_stringify : json -> string) (projectPath projectName imageTag : string)
  (docker_exit : Z) (w : world)
  (Hnone : forall d n, In (d, n) (files_dfs projectPath (proj w)) ->
                       JS.endsWith n "package.json" = false) :
  match scanProject json_parse json_stringify projectPath PDir projectName imageTag
          docker_exit w with
  | (w', evs, r) =>
      r = Ok tt /\ w' = w /\ In (SpinnerFail unknown_type_msg) evs
      /\ (forall c, ~ In (Exec c) evs) /\ (forall f c, ~ In (WriteFile f c) evs)
  end.
Proof.
  unfold scanProject, rethrow_with, bind, log, emit, get_world; cbv beta iota.
  rewrite scan_loop_eq. cbv beta iota.
  rewrite (no_package_json _ _ Hnone). cbn.
  split; [reflexivity|]. split; [reflexivity|].
  split; [|split].
  - right. right. apply in_or_app. right. simpl. tauto.
  - intros c Hin. destruct Hin as [H|[H|Hin]]; try discriminate.
    apply in_app_or in Hin as [Hin|Hin].
    + apply in_map_scan_log in Hin as [m H]. discriminate.
    + simpl in Hin. intuition discriminate.
  - intros f c Hin. destruct Hin as [H|[H|Hin]]; try discriminate.
    apply in_app_or in Hin as [Hin|Hin].
    + apply in_map_scan_log in Hin as [m H]. discriminate.
    + simpl in Hin. intuition discriminate.
Qed.

(** C6 witness: a Python project. *)
Lemma scan_unknown_project_type_witness :
  (forall d n, In (d, n) (files_dfs "/proj" [File "app.py" ""; Dir "lib" [File "util.py" ""]]) ->
               JS.endsWith n "package.json" = false)
  /\ match scanProject (fun _ => None) (fun _ => EmptyString) "/proj" PDir "demo" "latest" 0
             (mkWorld [File "app.py" ""; Dir "lib" [File "util.py" ""]] []) with
     | (w', evs, r) =>
         r = Ok tt /\ w' = mkWorld [File "app.py" ""; Dir "lib" [File "util.py" ""]] []
         /\ In (SpinnerFail unknown_type_msg) evs
         /\ (forall c, ~ In (Exec c) evs) /\ (forall f c, ~ In (WriteFile f c) evs)
     end.
Proof.
  assert (H : forall d n, In (d, n) (files_dfs "/proj"
                 [File "app.py" ""; Dir "lib" [File "util.py" ""]]) ->
               JS.endsWith n "package.json" = false).
  { intros d n Hin. simpl in Hin. destruct Hin as [E|[E|[]]]; inversion E; reflexivity. }
  split; [exact H|].
  exact (scan_unknown_project_type (fun _ => None) (fun _ => EmptyString) "/proj" "demo"
           "latest" 0 (mkWorld [File "app.py" ""; Dir "lib" [File "util.py" ""]] []) H).
Defined.

(** ** C8: an existing Dockerfile is never rewritten *)

(** C8. If the project root holds a file "Dockerfile", [generateDockerfile]
    returns its path and only logs (no write, world unchanged), and a scan
    of the project leaves the whole project tree, hence that file's content,
    unchanged: synthesis is idempotent under re-scan. *)
Theorem existing_dockerfile_kept (json_parse : string -> option json)
  (json_stringify : json -> string) (projectType projectPath : string) (w : world)
  (content : string)
  (Hroot : find_child "Dockerfile" (proj w) = Some (File "Dockerfile" content)) :
  generateDockerfile json_parse json_stringify projectType projectPath w =
    (w, [Log "Existing Dockerfile found, skipping generation."],
     Ok (Path.join projectPath "Dockerfile"))
  /\ (forall projectName imageTag docker_exit,
        match scanProject json_parse json_stringify projectPath PDir projectName imageTag
                docker_exit w with
        | (w', _, _) => proj w' = proj w
                        /\ find_child "Dockerfile" (proj w') = Some (File "Dockerfile" content)
        end).
Proof.
  split.
  - unfold generateDockerfile, path_exists, bind, get_world, ret, log, emit; cbv beta iota.
    rewrite Hroot. reflexivity.
  - intros projectName imageTag docker_exit.
    unfold scanProject, rethrow_with, bind, log, emit, get_world; cbv beta iota.
    rewrite scan_loop_eq. cbv beta iota.
    rewrite (root_dockerfile_found projectPath content (proj w) Hroot).
    destruct (existsb is_pj (scanEntireDirectory projectPath (proj w))).
    + cbn -[buildDockerImage].
      pose proof (buildDockerImage_world projectPath projectName imageTag docker_exit w) as Hb.
      destruct (buildDockerImage projectPath projectName imageTag docker_exit w)
        as [[w1 evs1] r1]. simpl in Hb. subst w1.
      destruct r1; simpl; auto.
    + cbn. auto.
Qed.

(** C8 witness: a project whose root holds a Dockerfile and a package.json. *)
Lemma existing_dockerfile_kept_witness :
  find_child "Dockerfile" [File "Dockerfile" "FROM node:14"; File "package.json" "{}"]
    = Some (File "Dockerfile" "FROM node:14")
  /\ generateDockerfile (fun _ => None) (fun _ => EmptyString) "nodejs" "/app"
       (mkWorld [File "Dockerfile" "FROM node:14"; File "package.json" "{}"] [])
     = (mkWorld [File "Dockerfile" "FROM node:14"; File "package.json" "{}"] [],
        [Log "Existing Dockerfile found, skipping generation."], Ok "/app/Dockerfile")
  /\ (forall projectName imageTag docker_exit,
        match scanProject (fun _ => None) (fun _ => EmptyString) "/app" PDir projectName
                imageTag docker_exit
                (mkWorld [File "Dockerfile" "FROM node:14"; File "package.json" "{}"] []) with
        | (w', _, _) =>
            proj w' = [File "Dockerfile" "FROM node:14"; File "package.json" "{}"]
            /\ find_child "Dockerfile" (proj w') = Some (File "Dockerfile" "FROM node:14")
        end).
Proof.
  split; [reflexivity|].
  exact (existing_dockerfile_kept (fun _ => None) (fun _ => EmptyString) "nodejs" "/app"
           (mkWorld [File "Dockerfile" "FROM node:14"; File "package.json" "{}"] [])
           "FROM node:14" eq_refl).
Defined.


(** ** C7: the nodejs template and its substitutions *)

(** The index.js rule finds no [EXPOSE 3000] left after the express rule:
    it confirms the port and changes nothing. *)
Lemma listen_rule_after_express :
  JS.replace express_substituted EXPOSE_3000 EXPOSE_8000 = express_substituted.
Proof. vm_compute. reflexivity. Qed.

(** For a project with no root Dockerfile whose root package.json has a
    truthy [dependencies.express] and whose root index.js contains
    "app.listen(8000)", [generateDockerfile "nodejs"] writes the trimmed
    [express_substituted] to the root Dockerfile and returns its path. *)
Lemma generate_nodejs_express_listen (json_parse : string -> option json)
  (json_stringify : json -> string) (projectPath : string) (w : world)
  (pkg_text idx_text : string) (kvs dkvs : list (string * json))
  (Hdf : find_child "Dockerfile" (proj w) = None)
  (Hpkg : find_child "package.json" (proj w) = Some (File "package.json" pkg_text))
  (Hidx : find_child "index.js" (proj w) = Some (File "index.js" idx_text))
  (Hparse : json_parse pkg_text = Some (JObj kvs))
  (Hdeps : assoc_last "dependencies" kvs = Some (JObj dkvs))
  (Hexp : truthy (assoc_last "express" dkvs) = true)
  (Hlisten : JS.includes idx_text "app.listen(8000)" = true) :
  match generateDockerfile json_parse json_stringify "nodejs" projectPath w with
  | (w', evs, r) =>
      r = Ok (Path.join projectPath "Dockerfile")
      /\ proj w' = write_child "Dockerfile" (JS.trim express_substituted) (proj w)
      /\ In (WriteFile (Path.join projectPath "Dockerfile") (JS.trim express_substituted)) evs
  end.
Proof.
  unfold generateDockerfile, nodejs_dockerfile, analyzeNodeProject, path_exists,
    read_proj_file, write_proj_file, read_template, rethrow_with, lift, bind, ret, log,
    emit, get_world, put_world, throw; cbv beta iota zeta.
  unfold json_get.
  repeat (first [ rewrite Hdf | rewrite Hpkg | rewrite Hidx | rewrite Hparse
                | rewrite Hdeps | rewrite Hexp | rewrite Hlisten
                | progress (cbn -[JS.replace JS.trim JS.includes nodejs_template
                                   CMD_npm_start CMD_node_index]) ]).
  fold express_substituted. rewrite listen_rule_after_express.
  split; [reflexivity|]. split; [reflexivity|].
  repeat (try (left; reflexivity); right).
Qed.

(** C7 at the failing input: express declared with the empty version string
    and index.js containing "app.listen(8000)". The empty string is falsy,
    so the express rule is skipped: the written Dockerfile has EXPOSE 8000
    (from the index.js rule) but keeps CMD ["npm", "start"], and differs
    from the template with both substitutions. *)
Lemma nodejs_express_empty_version :
  match generateDockerfile parse_express_empty (fun _ => EmptyString) "nodejs" "/proj"
          (mkWorld [File "package.json" pkg_text_express_empty;
                    File "index.js" "app.listen(8000)"] []) with
  | (w', _, r) =>
      r = Ok "/proj/Dockerfile"
      /\ find_child "Dockerfile" (proj w')
         = Some (File "Dockerfile" (JS.trim (JS.replace nodejs_template EXPOSE_3000 EXPOSE_8000)))
      /\ JS.includes (JS.trim (JS.replace nodejs_template EXPOSE_3000 EXPOSE_8000))
           CMD_npm_start = true
      /\ JS.trim (JS.replace nodejs_template EXPOSE_3000 EXPOSE_8000)
         <> JS.trim express_substituted
  end.
Proof.
  vm_compute. split; [reflexivity|]. split; [reflexivity|]. split; [reflexivity|].
  discriminate.
Qed.

(** ** Lemmas on the driver monad *)

Lemma bind_ok {A B} (m : M A) (k : A -> M B) (w w1 : world) (evs1 : list ev) (a : A) :
  m w = (w1, evs1, Ok a) ->
  bind m k w = match k a w1 with (w2, evs2, r) => (w2, app evs1 evs2, r) end.
Proof. intros H. unfold bind. rewrite H. reflexivity. Qed.

Lemma bind_throw {A B} (m : M A) (k : A -> M B) (w w1 : world) (evs1 : list ev) (e : err) :
  m w = (w1, evs1, Throw e) -> bind m k w = (w1, evs1, Throw e).
Proof. intros H. unfold bind. rewrite H. reflexivity. Qed.

Lemma bind_cong_ok {A B} (m : M A) (k1 k2 : A -> M B) (w : world) :
  (forall a w1 evs1, m w = (w1, evs1, Ok a) -> k1 a w1 = k2 a w1) ->
  bind m k1 w = bind m k2 w.
Proof.
  intros H. unfold bind. destruct (m w) as [[w1 evs1] [a|e]] eqn:E; [|reflexivity].
  rewrite (H a w1 evs1 eq_refl). reflexivity.
Qed.

Lemma bind_ok_inv {A B} (m : M A) (k : A -> M B) (w w2 : world) (evs : list ev) (b : B) :
  bind m k w = (w2, evs, Ok b) ->
  exists w1 evs1 a evs2, m w = (w1, evs1, Ok a) /\ k a w1 = (w2, evs2, Ok b).
Proof.
  unfold bind. destruct (m w) as [[w1 evs1] [a|e]]; [|discriminate].
  destruct (k a w1) as [[w' evs2] r] eqn:E. intros H. inversion H; subst.
  exists w1, evs1, a, evs2. auto.
Qed.

Lemma rethrow_ok {A} (h : err -> list ev) (m : M A) (w w1 : world) (evs : list ev) (a : A) :
  rethrow_with h m w = (w1, evs, Ok a) -> m w = (w1, evs, Ok a).
Proof. unfold rethrow_with. destruct (m w) as [[w' evs'] [a'|e]]; congruence. Qed.

Lemma rethrow_events {A} (h : err -> list ev) (m : M A) (w : world) (x : ev) :
  In x (snd (fst (m w))) -> In x (snd (fst (rethrow_with h m w))).
Proof.
  unfold rethrow_with. destruct (m w) as [[w' evs'] [a'|e]]; simpl; auto.
  intros. apply in_or_app. auto.
Qed.

Lemma bind_events {A B} (m : M A) (k : A -> M B) (w : world) (x : ev) :
  In x (snd (fst (m w))) -> In x (snd (fst (bind m k w))).
Proof.
  unfold bind. destruct (m w) as [[w1 evs1] [a|e]]; simpl; auto.
  destruct (k a w1) as [[w2 evs2] r]. simpl. intros. apply in_or_app. auto.
Qed.


Lemma keeps_ret {A} (a : A) : keeps (ret a).
Proof. intros w. reflexivity. Qed.
Lemma keeps_emit (e : ev) : keeps (emit e).
Proof. intros w. reflexivity. Qed.
Lemma keeps_log (m : string) : keeps (log m).
Proof. intros w. reflexivity. Qed.
Lemma keeps_throw {A} (e : err) : keeps (@throw A e).
Proof. intros w. reflexivity. Qed.
Lemma keeps_emits (evs : list ev) : keeps (emits evs).
Proof. intros w. reflexivity. Qed.
Lemma keeps_get_world : keeps get_world.
Proof. intros w. reflexivity. Qed.
Lemma keeps_lift {A} (r : res A) : keeps (lift r).
Proof. intros w. destruct r; reflexivity. Qed.
Lemma keeps_bind {A B} (m : M A) (k : A -> M B) :
  keeps m -> (forall a, keeps (k a)) -> keeps (bind m k).
Proof.
  intros Hm Hk w. unfold bind. specialize (Hm w).
  destruct (m w) as [[w1 evs1] [a|e]]; simpl in *; [|exact Hm].
  specialize (Hk a w1). destruct (k a w1) as [[w2 evs2] r]. simpl in *. congruence.
Qed.
Lemma keeps_rethrow {A} (h : err -> list ev) (m : M A) : keeps m -> keeps (rethrow_with h m).
Proof.
  intros Hm w. unfold rethrow_with. specialize (Hm w).
  destruct (m w) as [[w1 evs1] [a|e]]; exact Hm.
Qed.
Lemma keeps_for_each {A} (xs : list A) (body : A -> M unit) :
  (forall x, keeps (body x)) -> keeps (for_each xs body).
Proof.
  intros Hb. induction xs as [|x r IH]; simpl; [apply keeps_ret|].
  apply keeps_bind; auto.
Qed.

Create HintDb keeps.
#[local] Hint Resolve keeps_ret keeps_emit keeps_log keeps_throw keeps_emits keeps_get_world
  keeps_lift keeps_bind keeps_rethrow keeps_for_each : keeps.

Ltac keeps_tac :=
  repeat (first [ progress (intros; eauto 3 with keeps)
                | apply keeps_bind
                | apply keeps_rethrow
                | apply keeps_for_each
                | match goal with
                  | |- keeps (match ?x with _ => _ end) => destruct x
                  | |- keeps (if ?b then _ else _) => destruct b
                  | |- keeps (let '(_, _) := ?x in _) => destruct x
                  end ]).

Lemma keeps_update_loop (img : string) (cs : list yval) : keeps (update_loop img cs).
Proof. induction cs as [|c r IH]; simpl; keeps_tac. Qed.

Lemma keeps_update_containers (img : string) (cs : option yval) :
  keeps (update_containers img cs).
Proof.
  unfold update_containers. destruct cs as [[| | | [|? ?] | l |]|]; keeps_tac.
  apply keeps_update_loop.
Qed.

Lemma write_child_in (n c : string) (l : list entry) : In (File n c) (write_child n c l).
Proof.
  induction l as [|[n' c'|n' ch] r IH]; simpl; auto.
  destruct (String.eqb n' n); simpl; auto.
Qed.

Lemma find_child_some (n : string) (l : list entry) (e : entry) :
  find_child n l = Some e -> In e l /\ entry_name e = n.
Proof.
  induction l as [|x r IH]; simpl; [discriminate|].
  destruct (String.eqb_spec (entry_name x) n) as [E|E].
  - intros H. inversion H; subst. auto.
  - intros H. destruct (IH H). auto.
Qed.

Lemma scan_root_file (p n c : string) (l : list entry) :
  In (File n c) l -> In (Path.join p n) (scanEntireDirectory p l).
Proof.
  intros H. unfold scanEntireDirectory. apply in_flat_map.
  exists (File n c). simpl. auto.
Qed.

Lemma scanYAMLFiles_eq (p : string) (w : world) :
  p <> EmptyString ->
  scanYAMLFiles p w =
    (w, [], Ok (filter is_service_yaml (scanEntireDirectory p (proj w)),
                filter is_deployment_yaml (scanEntireDirectory p (proj w)))).
Proof.
  intros Hp. unfold scanYAMLFiles. apply String.eqb_neq in Hp. rewrite Hp. reflexivity.
Qed.

Lemma web_deployment_is_deployment (p : string) :
  is_deployment_yaml (Path.join p "web-deployment.yaml") = true.
Proof.
  unfold is_deployment_yaml, is_service_yaml.
  destruct (JS.endsWith (Path.join p "web-deployment.yaml") "service.yaml") eqn:E.
  - apply endsWith_join in E; [discriminate|reflexivity].
  - simpl. change (Path.join p "web-deployment.yaml") with (p ++ ("/web-" ++ "deployment.yaml")).
    rewrite <- str_app_assoc. apply endsWith_app.
Qed.

(** After a successful image rewrite, the root holds web-deployment.yaml. *)
Lemma update_web_ok_file (yaml_load : string -> option yval) (yaml_dump : yval -> string)
  (p name tag : string) (w w1 : world) (evs : list ev) (u : unit) :
  updateWebDeploymentImage yaml_load yaml_dump p name tag w = (w1, evs, Ok u) ->
  (exists c, In (File "web-deployment.yaml" c) (proj w1)) /\ cwd_files w1 = cwd_files w.
Proof.
  unfold updateWebDeploymentImage. intros H. apply rethrow_ok in H.
  apply bind_ok_inv in H as [w2 [e2 [c [e3 [Hr H]]]]].
  unfold read_proj_file, bind, get_world in Hr. cbv beta iota in Hr.
  destruct (find_child "web-deployment.yaml" (proj w)) as [[n c'|n ch]|] eqn:Hf;
    inversion Hr; subst; clear Hr.
  apply bind_ok_inv in H as [w3 [e4 [d [e5 [Hl H]]]]].
  destruct (yaml_load c); inversion Hl; subst; clear Hl.
  apply bind_ok_inv in H as [w4 [e6 [cs [e7 [Hc H]]]]].
  destruct (containers_of d); inversion Hc; subst; clear Hc.
  apply bind_ok_inv in H as [w5 [e8 [cs' [e9 [Hu H]]]]].
  match type of Hu with
  | update_containers ?i ?x ?v = _ => pose proof (keeps_update_containers i x v) as K
  end.
  rewrite Hu in K. simpl in K. subst w5.
  apply bind_ok_inv in H as [w6 [e10 [t [e11 [Hw H]]]]].
  unfold write_proj_file, bind, get_world, put_world, emit in Hw. cbv beta iota in Hw.
  rewrite Hf in Hw. inversion Hw; subst; clear Hw.
  inversion H; subst. simpl. split; [|reflexivity].
  eexists. apply write_child_in.
Qed.

Lemma update_web_missing (yaml_load : string -> option yval) (yaml_dump : yval -> string)
  (p name tag : string) (w : world) :
  (forall c, ~ In (File "web-deployment.yaml" c) (proj w)) ->
  exists e, updateWebDeploymentImage yaml_load yaml_dump p name tag w
            = (w, [Log ("Error updating web-deployment.yaml: " ++ err_message e)], Throw e).
Proof.
  intros Hno.
  assert (Hr : exists e, read_proj_file p "web-deployment.yaml" w = (w, [], Throw e)).
  { unfold read_proj_file, bind, get_world. cbv beta iota.
    destruct (find_child "web-deployment.yaml" (proj w)) as [[n c|n ch]|] eqn:Hf.
    - exfalso. apply find_child_some in Hf as [Hin Hn]. simpl in Hn. subst n.
      exact (Hno c Hin).
    - eexists. reflexivity.
    - eexists. reflexivity. }
  destruct Hr as [e He]. exists e.
  unfold updateWebDeploymentImage. cbv zeta. unfold rethrow_with.
  rewrite (bind_throw _ _ _ _ _ _ He). reflexivity.
Qed.

(** ** C10: web-deployment.yaml gates the Kubernetes driver *)

(** C10. (1) If the project root holds no file named web-deployment.yaml,
    [deployKubernetes] fails in the image-rewrite step: it only logs the two
    error lines and raises, before any YAML file is classified, fabricated or
    applied, and the world is unchanged. (2) The driver behaves, on every
    world, exactly as the driver without the fabrication branch: that branch
    never runs. (3) When the root holds web-deployment.yaml, the deployment
    bucket of the classification contains its path. *)
Theorem web_deployment_gates_driver (yaml_load : string -> option yval)
  (yaml_dump : yval -> string) (cwd : string) (env : kube_env)
  (projectName projectPath : string) :
  (forall w, projectPath <> EmptyString ->
     (forall c, ~ In (File "web-deployment.yaml" c) (proj w)) ->
     exists e, deployKubernetes yaml_load yaml_dump cwd env projectName projectPath w
               = (w, [Log ("Error updating web-deployment.yaml: " ++ err_message e);
                      Log ("Failed to deploy on Kubernetes: " ++ err_stack e)], Throw e))
  /\ (forall w, deployKubernetes yaml_load yaml_dump cwd env projectName projectPath w
                = deployKubernetes_no_fabrication yaml_load yaml_dump env projectName projectPath w)
  /\ (forall w c, projectPath <> EmptyString ->
        In (File "web-deployment.yaml" c) (proj w) ->
        match scanYAMLFiles projectPath w with
        | (_, _, Ok (_, deploymentYAMLs)) =>
            In (Path.join projectPath "web-deployment.yaml") deploymentYAMLs
        | _ => False
        end).
Proof.
  split; [|split].
  - intros w Hp Hno.
    destruct (update_web_missing yaml_load yaml_dump projectPath projectName "latest" w Hno)
      as [e He].
    exists e. unfold deployKubernetes, rethrow_with.
    apply String.eqb_neq in Hp. rewrite Hp.
    rewrite (bind_throw _ _ _ _ _ _ He). reflexivity.
  - intros w. unfold deployKubernetes, deployKubernetes_no_fabrication, rethrow_with.
    destruct (String.eqb projectPath EmptyString) eqn:Ep; [reflexivity|].
    apply String.eqb_neq in Ep.
    match goal with
    | |- match ?a with _ => _ end = match ?b with _ => _ end =>
        assert (E : a = b); [|rewrite E; reflexivity]
    end.
    apply bind_cong_ok. intros u w1 evs1 Hu.
    destruct (update_web_ok_file _ _ _ _ _ _ _ _ _ Hu) as [[c Hin] _].
    apply bind_cong_ok. intros u' w2 evs2 Hl. inversion Hl; subst w2.
    apply bind_cong_ok. intros yamls w3 evs3 Hs.
    rewrite (scanYAMLFiles_eq _ _ Ep) in Hs. inversion Hs; subst w3 yamls.
    apply bind_cong_ok. intros u2 w4 evs4 Hl4. inversion Hl4; subst w4.
    apply bind_cong_ok. intros u3 w5 evs5 Hl5. inversion Hl5; subst w5.
    assert (Hd : In (Path.join projectPath "web-deployment.yaml")
                    (filter is_deployment_yaml (scanEntireDirectory projectPath (proj w1)))).
    { apply filter_In. split; [apply (scan_root_file _ _ c); exact Hin|].
      apply web_deployment_is_deployment. }
    unfold fabricate_if_none.
    destruct (filter is_deployment_yaml (scanEntireDirectory projectPath (proj w1)))
      as [|x r]; [contradiction|].
    cbn [length Nat.eqb]. rewrite andb_false_r.
    unfold bind, ret. cbv beta iota.
    destruct (apply_and_report env projectName projectPath
                (filter is_service_yaml (scanEntireDirectory projectPath (proj w1)), x :: r) w1)
      as [[w' evs'] r']. reflexivity.
  - intros w c Hp Hin. rewrite (scanYAMLFiles_eq _ _ Hp).
    apply filter_In. split; [apply (scan_root_file _ _ c); exact Hin|].
    apply web_deployment_is_deployment.
Qed.

Lemma assoc_first_set {A} (k k' : string) (v : A) (l : list (string * A)) :
  assoc_first k (assoc_set k' v l) = if String.eqb k k' then Some v else assoc_first k l.
Proof.
  induction l as [|[k0 v0] r IH]; simpl; [reflexivity|].
  destruct (String.eqb_spec k' k0) as [<-|Hne]; simpl.
  - destruct (String.eqb k k'); reflexivity.
  - rewrite IH. destruct (String.eqb_spec k k') as [->|Hk]; [|reflexivity].
    apply String.eqb_neq in Hne. rewrite Hne. reflexivity.
Qed.


Lemma update_loop_maps (img : string) (cs : list yval) (w : world) :
  Forall (fun c => exists kvs, c = YMap kvs) cs ->
  exists cs' evs, update_loop img cs w = (w, evs, Ok cs')
                  /\ length cs' = length cs /\ Forall (rewritten img) cs'.
Proof.
  induction 1 as [|c r [kvs ->] _ [cs' [evs [Hl [Hlen Hf]]]]].
  - exists [], []. auto.
  - eexists (_ :: cs'), _. simpl update_loop.
    rewrite (bind_ok _ _ w w [] _ eq_refl).
    unfold log, emit, bind. cbv beta iota. rewrite Hl. cbv beta iota.
    split; [reflexivity|]. split; [simpl; congruence|]. constructor; [|exact Hf].
    unfold rewritten, yget. rewrite !assoc_first_set. simpl. auto.
Qed.

Lemma containers_of_set (doc x y : yval) :
  containers_of doc = Ok (Some x) -> containers_of (set_containers doc y) = Ok (Some y).
Proof.
  unfold containers_of, set_containers.
  destruct doc as [| | | | |d]; simpl; try discriminate.
  destruct (assoc_first "spec" d) as [[| | | | |s]|]; simpl; try discriminate.
  destruct (assoc_first "template" s) as [[| | | | |t]|]; simpl; try discriminate.
  destruct (assoc_first "spec" t) as [[| | | | |ts]|]; simpl; try discriminate.
  intros _. repeat (rewrite assoc_first_set; simpl). reflexivity.
Qed.

Lemma update_web_writes (yaml_load : string -> option yval) (yaml_dump : yval -> string)
  (p name tag content : string) (w : world) (doc : yval) (cs : list yval)
  (Hfile : find_child "web-deployment.yaml" (proj w) = Some (File "web-deployment.yaml" content))
  (Hload : yaml_load content = Some doc)
  (Hcs : containers_of doc = Ok (Some (YSeq cs)))
  (Hmaps : Forall (fun c => exists kvs, c = YMap kvs) cs) :
  exists cs',
    length cs' = length cs /\ Forall (rewritten (name ++ ":" ++ tag)) cs'
    /\ In (WriteFile (Path.join p "web-deployment.yaml")
                     (yaml_dump (set_containers doc (YSeq cs'))))
          (snd (fst (updateWebDeploymentImage yaml_load yaml_dump p name tag w))).
Proof.
  destruct (update_loop_maps (name ++ ":" ++ tag) cs w Hmaps) as [cs' [evs [Hl [Hlen Hf]]]].
  exists cs'. split; [exact Hlen|]. split; [exact Hf|].
  assert (Hr : read_proj_file p "web-deployment.yaml" w = (w, [], Ok content)).
  { unfold read_proj_file, bind, get_world. cbv beta iota. rewrite Hfile. reflexivity. }
  unfold updateWebDeploymentImage. cbv zeta. unfold rethrow_with.
  rewrite (bind_ok _ _ _ _ _ _ Hr). rewrite Hload.
  rewrite (bind_ok (ret doc) _ w w [] doc eq_refl).
  rewrite Hcs.
  rewrite (bind_ok (lift (Ok (Some (YSeq cs)))) _ w w [] _ eq_refl).
  assert (Hu : update_containers (name ++ ":" ++ tag) (Some (YSeq cs)) w
               = (w, app evs [], Ok (YSeq cs'))).
  { unfold update_containers. rewrite (bind_ok _ _ _ _ _ _ Hl). reflexivity. }
  rewrite (bind_ok _ _ _ _ _ _ Hu).
  assert (Hw : forall c, write_proj_file p "web-deployment.yaml" c w
               = (mkWorld (write_child "web-deployment.yaml" c (proj w)) (cwd_files w),
                  [WriteFile (Path.join p "web-deployment.yaml") c], Ok tt)).
  { intros c. unfold write_proj_file, bind, get_world, put_world, emit. cbv beta iota.
    rewrite Hfile. reflexivity. }
  rewrite (bind_ok _ _ _ _ _ _ (Hw _)).
  simpl. rewrite !in_app_iff. simpl. auto.
Qed.

(** ** C5: the image of web-deployment.yaml is forced to latest *)

(** C5. Whatever image tag the operator entered, the [k8s] branch of the CLI
    rewrites web-deployment.yaml: when its containers are a list of mappings,
    the file written holds the same number of containers, each with [image]
    equal to [<name>:latest] and [imagePullPolicy] equal to [IfNotPresent].
    The write happens whatever the later steps do. *)
Theorem k8s_web_deployment_latest (yaml_load : string -> option yval)
  (yaml_dump : yval -> string) (cwd : string) (env : kube_env)
  (projectPath projectName imageTag content : string) (w : world) (doc : yval)
  (cs : list yval)
  (Hp : projectPath <> EmptyString)
  (Hfile : find_child "web-deployment.yaml" (proj w) = Some (File "web-deployment.yaml" content))
  (Hload : yaml_load content = Some doc)
  (Hcs : containers_of doc = Ok (Some (YSeq cs)))
  (Hmaps : Forall (fun c => exists kvs, c = YMap kvs) cs) :
  exists cs',
    length cs' = length cs
    /\ Forall (rewritten (projectName ++ ":latest")) cs'
    /\ containers_of (set_containers doc (YSeq cs')) = Ok (Some (YSeq cs'))
    /\ In (WriteFile (Path.join projectPath "web-deployment.yaml")
                     (yaml_dump (set_containers doc (YSeq cs'))))
          (snd (fst (cli_deploy_k8s yaml_load yaml_dump cwd env projectPath projectName
                       imageTag w))).
Proof.
  destruct (update_web_writes yaml_load yaml_dump projectPath projectName "latest" content w
              doc cs Hfile Hload Hcs Hmaps) as [cs' [Hlen [Hf Hin]]].
  exists cs'. split; [exact Hlen|]. split; [exact Hf|].
  split; [exact (containers_of_set _ _ _ Hcs)|].
  unfold cli_deploy_k8s, deployKubernetes. apply rethrow_events.
  apply String.eqb_neq in Hp. rewrite Hp. apply bind_events. exact Hin.
Qed.

(** ** C1: no manifest is fabricated for a project without manifests *)

(** What the fabrication branch does when it runs. *)
Lemma fabrication_branch (cwd projectName : string) (w : world) :
  fabricate_if_none cwd projectName ([], []) w =
    (mkWorld (proj w)
       (set_file (Path.join cwd (projectName ++ "-service.yaml")) (JS.trim (serviceYAML projectName))
          (set_file (Path.join cwd (projectName ++ "-deployment.yaml"))
             (JS.trim (deploymentYAML projectName "latest")) (cwd_files w))),
     [Log no_yaml_msg;
      WriteFile (Path.join cwd (projectName ++ "-deployment.yaml"))
                (JS.trim (deploymentYAML projectName "latest"));
      WriteFile (Path.join cwd (projectName ++ "-service.yaml")) (JS.trim (serviceYAML projectName));
      Log "Generated Kubernetes YAML files for Deployment and Service."],
     Ok ([Path.join cwd (projectName ++ "-service.yaml")],
         [Path.join cwd (projectName ++ "-deployment.yaml")])).
Proof. reflexivity. Qed.


(** C1. For a project holding no YAML file (package.json and index.js only,
    named [demo]), the classification yields two empty buckets, yet
    [deployKubernetes] writes no manifest and applies nothing: it raises
    ENOENT on [/demo/web-deployment.yaml] after two log lines, leaving the
    working directory untouched. *)
Theorem k8s_no_manifests_fails (yaml_load : string -> option yval)
  (yaml_dump : yval -> string) (cwd : string) (env : kube_env) :
  scanYAMLFiles "/demo" demo_project = (demo_project, [], Ok ([], []))
  /\ deployKubernetes yaml_load yaml_dump cwd env "demo" "/demo" demo_project =
     (demo_project,
      [Log ("Error updating web-deployment.yaml: "
            ++ err_message (ENOENT "/demo/web-deployment.yaml"));
       Log ("Failed to deploy on Kubernetes: " ++ err_stack (ENOENT "/demo/web-deployment.yaml"))],
      Throw (ENOENT "/demo/web-deployment.yaml")).
Proof. split; reflexivity. Qed.

(** ** C9: the run driver does not report the command's failure *)

(** C9. For every result of the issued [docker run] (or its ssh-wrapped
    form), [deployDocker] fulfils with no error after logging and issuing the
    command. A failure of the command is only logged by the callback and
    thrown there as an uncaught exception. It is never a rejection of the
    driver's promise. *)
Theorem deployDocker_outcome_ignores_command (projectPath projectName imageTag : string)
  (remote user password : option string) (result : exec_result) (w : world) :
  let run := deployDocker_run projectPath projectName imageTag remote user password result w in
  run_outcome run = Ok tt
  /\ run_world run = w
  /\ run_events run = [Log ("Deploying with command: " ++ docker_run_cmd projectName imageTag remote user);
                       Exec (docker_run_cmd projectName imageTag remote user)]
  /\ match result with
     | ExecErr stderr =>
         callback_events run = [Log ("Error deploying Docker image: " ++ stderr)]
         /\ uncaught run = Some (ExecFailed stderr)
     | ExecOk stdout =>
         callback_events run = [Log ("Docker image deployed successfully. Output: " ++ stdout)]
         /\ uncaught run = None
     end.
Proof.
  unfold deployDocker_run.
  assert (H : deployDocker projectPath projectName imageTag remote user password w =
              (w, [Log ("Deploying with command: " ++ docker_run_cmd projectName imageTag remote user);
                   Exec (docker_run_cmd projectName imageTag remote user)], Ok tt))
    by reflexivity.
  rewrite H. unfold issued. simpl existsb. rewrite String.eqb_refl.
  destruct result; simpl; auto.
Qed.

(** ** The readiness poll *)


Lemma rows_ready_spec (ls : list string) :
  rows_ready ls = true <->
  Forall (fun row => pod_status row = Some "Running") (filter (fun l => negb (is_blank l)) ls).
Proof.
  induction ls as [|l r IH]; cbn [rows_ready filter].
  - split; auto.
  - destruct (is_blank l); cbn [negb]; [exact IH|].
    rewrite Forall_cons_iff, <- IH. unfold pod_status at 1.
    destruct (nth_error (JS.split_ws l) 2) as [st|].
    + destruct (String.eqb st "Running") eqn:E.
      * apply String.eqb_eq in E. subst st. tauto.
      * apply String.eqb_neq in E. split; [discriminate|]. intros [H _]. congruence.
    + split; [discriminate|]. intros [H _]. discriminate.
Qed.

Lemma pods_ready_spec (out : string) : pods_ready out = true <-> all_running out.
Proof. unfold pods_ready, all_running, pod_rows. apply rows_ready_spec. Qed.

Section Clock.
Variable clock : nat -> Z.
Hypothesis Hstep : forall i, (clock i + 5000 <= clock (S i))%Z.

Lemma clock_mono (i j : nat) : (i <= j)%nat -> (clock i <= clock j)%Z.
Proof.
  induction 1 as [|j _ IH]; [lia|]. specialize (Hstep j). lia.
Qed.

Lemma clock_lower (n : nat) : (clock O + 5000 * Z.of_nat n <= clock n)%Z.
Proof.
  induction n as [|n IH]; [lia|]. specialize (Hstep n). lia.
Qed.

Lemma poll_loop_S (fuel : nat) (namespace : string) (timeout startTime : Z)
  (sample : nat -> exec_result) (i : nat) :
  poll_loop (S fuel) namespace timeout startTime clock sample i =
  if (clock i - startTime <? 1000 * timeout)%Z then
    match sample i with
    | ExecErr stderr => ([Exec ("kubectl get pods -n " ++ namespace)], PollError stderr)
    | ExecOk podsOutput =>
        if pods_ready podsOutput then ([Exec ("kubectl get pods -n " ++ namespace)], PollReady)
        else let '(evs, o) := poll_loop fuel namespace timeout startTime clock sample (S i) in
             (Exec ("kubectl get pods -n " ++ namespace) :: evs, o)
    end
  else ([], PollTimeout).
Proof. reflexivity. Qed.

Lemma poll_loop_spec (namespace : string) (timeout startTime : Z) (outs : nat -> string) :
  forall f i, (1000 * timeout <= clock (i + f)%nat - startTime)%Z ->
  let o := snd (poll_loop (S f) namespace timeout startTime clock (fun j => ExecOk (outs j)) i) in
  (o = PollReady \/ o = PollTimeout)
  /\ (o = PollReady <-> exists j, (i <= j)%nat /\ (clock j - startTime < 1000 * timeout)%Z
                                /\ pods_ready (outs j) = true).
Proof.
  induction f as [|f IH]; intros i Hd; rewrite poll_loop_S.
  - rewrite Nat.add_0_r in Hd.
    destruct (Z.ltb_spec (clock i - startTime) (1000 * timeout)); [lia|].
    cbn [snd]. split; [right; reflexivity|]. split; [discriminate|].
    intros [j [Hj [Hlt _]]]. pose proof (clock_mono i j Hj). exfalso; lia.
  - destruct (Z.ltb_spec (clock i - startTime) (1000 * timeout)) as [Hlt|Hge].
    + destruct (pods_ready (outs i)) eqn:R.
      * simpl. split; [left; reflexivity|].
        split; [intros _; exists i; split; [lia|split; assumption]|reflexivity].
      * assert (Hd' : (1000 * timeout <= clock (S i + f)%nat - startTime)%Z).
        { replace (S i + f)%nat with (i + S f)%nat by lia. exact Hd. }
        destruct (IH (S i) Hd') as [Ho Hiff].
        destruct (poll_loop (S f) namespace timeout startTime clock
                    (fun j => ExecOk (outs j)) (S i)) as [evs o] eqn:P.
        cbn [snd] in Ho, Hiff |- *. split; [exact Ho|]. rewrite Hiff.
        split; intros [j [Hj [Hl Hr]]]; exists j; repeat split; auto; [lia|].
        destruct (Nat.eq_dec i j) as [<-|]; [congruence|lia].
    + cbn [snd]. split; [right; reflexivity|]. split; [discriminate|].
      intros [j [Hj [Hlt _]]]. pose proof (clock_mono i j Hj). exfalso; lia.
Qed.

End Clock.

(** ** C4: the readiness poll *)

(** C4. If the clock is read at the start and advances by at least 5 s
    between tests, [waitForPodsReady] succeeds exactly when some sample taken
    before [timeout] seconds have elapsed has every row's status column
    equal to [Running]. It fails with the timeout error exactly when every
    such sample has a row that is not [Running]. *)
Theorem pods_ready_poll (namespace : string) (timeout startTime : Z) (clock : nat -> Z)
  (outs : nat -> string) (w : world)
  (Hstart : (startTime <= clock O)%Z)
  (Hstep : forall i, (clock i + 5000 <= clock (S i))%Z) :
  match waitForPodsReady namespace timeout startTime clock (fun i => ExecOk (outs i)) w with
  | (w', _, r) =>
      w' = w
      /\ (r = Ok tt <-> exists i, (clock i - startTime < 1000 * timeout)%Z /\ all_running (outs i))
      /\ (r = Throw PodsTimeout <->
          forall i, (clock i - startTime < 1000 * timeout)%Z -> ~ all_running (outs i))
  end.
Proof.
  assert (Hd : (1000 * timeout <= clock (0 + Z.to_nat timeout)%nat - startTime)%Z).
  { pose proof (clock_lower clock Hstep (Z.to_nat timeout)) as Hl. cbn [Nat.add].
    destruct (Z.le_gt_cases timeout 0).
    - assert (E : Z.to_nat timeout = O) by (destruct timeout; [reflexivity|lia|reflexivity]).
      rewrite E in *. lia.
    - rewrite Z2Nat.id in Hl by lia. lia. }
  destruct (poll_loop_spec clock Hstep namespace timeout startTime outs _ 0 Hd) as [Ho Hiff].
  unfold waitForPodsReady, poll, poll_fuel.
  destruct (poll_loop (S (Z.to_nat timeout)) namespace timeout startTime clock
              (fun j => ExecOk (outs j)) 0) as [evs o] eqn:P.
  cbn [snd] in Ho, Hiff.
  assert (Hex : o = PollReady <->
                exists i, (clock i - startTime < 1000 * timeout)%Z /\ all_running (outs i)).
  { rewrite Hiff. split; intros [j Hj]; exists j;
      [rewrite <- pods_ready_spec; tauto | rewrite pods_ready_spec; split; [lia|tauto]]. }
  destruct Ho as [-> | ->]; cbn.
  - split; [reflexivity|]. split; [split; [intros _; apply Hex; reflexivity|reflexivity]|].
    split; [discriminate|]. intros Hall.
    destruct (proj1 Hex eq_refl) as [i [Hi Hr]]. exfalso. exact (Hall i Hi Hr).
  - split; [reflexivity|]. split.
    + split; [discriminate|]. intros Hx. apply Hex in Hx. discriminate.
    + split; [|reflexivity]. intros _ i Hi Hr.
      assert (PollTimeout = PollReady) by (apply Hex; exists i; auto). discriminate.
Qed.

(** C4 witness. *)
Lemma pods_ready_poll_witness :
  (0 <= sample_clock O)%Z
  /\ (forall i, (sample_clock i + 5000 <= sample_clock (S i))%Z)
  /\ match waitForPodsReady "default" 300 0 sample_clock (fun i => ExecOk (sample_pods i))
             demo_project with
     | (w', _, r) =>
         w' = demo_project
         /\ (r = Ok tt <-> exists i, (sample_clock i - 0 < 1000 * 300)%Z /\ all_running (sample_pods i))
         /\ (r = Throw PodsTimeout <->
             forall i, (sample_clock i - 0 < 1000 * 300)%Z -> ~ all_running (sample_pods i))
     end.
Proof.
  assert (H0 : (0 <= sample_clock O)%Z) by (unfold sample_clock; simpl; lia).
  assert (H1 : forall i, (sample_clock i + 5000 <= sample_clock (S i))%Z)
    by (intros i; unfold sample_clock; rewrite Nat2Z.inj_succ; lia).
  split; [exact H0|]. split; [exact H1|].
  exact (pods_ready_poll "default" 300 0 sample_clock sample_pods demo_project H0 H1).
Defined.

(** C5 witness. *)
Lemma k8s_web_deployment_latest_witness :
  "/demo" <> EmptyString
  /\ find_child "web-deployment.yaml" (proj web_project)
     = Some (File "web-deployment.yaml" "kind: Deployment")
  /\ (fun _ : string => Some sample_web_deployment) "kind: Deployment" = Some sample_web_deployment
  /\ containers_of sample_web_deployment
     = Ok (Some (YSeq [YMap [("name", YStr "web"); ("image", YStr "web:1.0")]]))
  /\ Forall (fun c => exists kvs, c = YMap kvs) [YMap [("name", YStr "web"); ("image", YStr "web:1.0")]]
  /\ exists cs',
       length cs' = 1%nat
       /\ Forall (rewritten ("demo" ++ ":latest")) cs'
       /\ containers_of (set_containers sample_web_deployment (YSeq cs')) = Ok (Some (YSeq cs'))
       /\ In (WriteFile (Path.join "/demo" "web-deployment.yaml")
                        (Z_to_string (Z.of_nat (length cs'))))
             (snd (fst (cli_deploy_k8s (fun _ => Some sample_web_deployment)
                          (fun d => Z_to_string (Z.of_nat (match containers_of d with
                                                          | Ok (Some (YSeq l)) => length l
                                                          | _ => O end)))
                          "/work" idle_env "/demo" "demo" "v2" web_project))).
Proof.
  assert (Hp : "/demo" <> EmptyString) by discriminate.
  assert (Hm : Forall (fun c => exists kvs, c = YMap kvs)
                 [YMap [("name", YStr "web"); ("image", YStr "web:1.0")]])
    by (repeat constructor; eexists; reflexivity).
  split; [exact Hp|]. split; [reflexivity|]. split; [reflexivity|]. split; [reflexivity|].
  split; [exact Hm|].
  destruct (k8s_web_deployment_latest (fun _ => Some sample_web_deployment)
              (fun d => Z_to_string (Z.of_nat (match containers_of d with
                                               | Ok (Some (YSeq l)) => length l
                                               | _ => O end)))
              "/work" idle_env "/demo" "demo" "v2" "kind: Deployment" web_project
              sample_web_deployment _ Hp eq_refl eq_refl eq_refl Hm)
    as [cs' [Hlen [Hf [Hc Hin]]]].
  exists cs'. split; [exact Hlen|]. split; [exact Hf|]. split; [exact Hc|].
  rewrite Hc in Hin. exact Hin.
Defined.

(** C10 witness. *)
Lemma web_deployment_gates_driver_witness :
  "/demo" <> EmptyString
  /\ (forall c, ~ In (File "web-deployment.yaml" c) (proj demo_project))
  /\ (exists e, deployKubernetes (fun _ => None) (fun _ => EmptyString) "/work" idle_env "demo"
                  "/demo" demo_project
                = (demo_project, [Log ("Error updating web-deployment.yaml: " ++ err_message e);
                                  Log ("Failed to deploy on Kubernetes: " ++ err_stack e)], Throw e))
  /\ In (File "web-deployment.yaml" "kind: Deployment") (proj web_project)
  /\ match scanYAMLFiles "/demo" web_project with
     | (_, _, Ok (_, deploymentYAMLs)) => In (Path.join "/demo" "web-deployment.yaml") deploymentYAMLs
     | _ => False
     end.
Proof.
  assert (Hp : "/demo" <> EmptyString) by discriminate.
  assert (Hno : forall c, ~ In (File "web-deployment.yaml" c) (proj demo_project))
    by (intros c [H|[H|[]]]; discriminate).
  assert (Hin : In (File "web-deployment.yaml" "kind: Deployment") (proj web_project))
    by (left; reflexivity).
  destruct (web_deployment_gates_driver (fun _ => None) (fun _ => EmptyString) "/work" idle_env
              "demo" "/demo") as [Ha [_ Hc]].
  split; [exact Hp|]. split; [exact Hno|]. split; [exact (Ha demo_project Hp Hno)|].
  split; [exact Hin|]. exact (Hc web_project "kind: Deployment" Hp Hin).
Defined.

(** ** The Gemfile parser *)

Lemma split_class_app (p : ascii -> bool) (s rest cur : string) :
  str_forall (fun c => negb (p c)) s = true ->
  split_class_acc p (s ++ rest) cur = split_class_acc p rest (JS.rev_str s ++ cur).
Proof.
  revert cur. induction s as [|c s IH]; intros cur H; [reflexivity|].
  simpl in H. apply andb_prop in H as [Hc Hs].
  simpl. destruct (p c); [discriminate|].
  rewrite IH by exact Hs. rewrite str_app_assoc. reflexivity.
Qed.

Lemma split_char_class (sep : ascii) (s cur : string) :
  JS.split_char_acc sep s cur = split_class_acc (fun c => Ascii.eqb c sep) s cur.
Proof.
  revert cur. induction s as [|c s IH]; intros cur; simpl; [reflexivity|].
  rewrite !IH. reflexivity.
Qed.

Lemma split_lines (ls : list string) :
  Forall (fun l => str_forall (fun c => negb (Ascii.eqb c newline)) l = true) ls ->
  JS.split_char newline (lines ls) = app ls [EmptyString].
Proof.
  unfold JS.split_char. rewrite split_char_class.
  induction ls as [|l r IH]; intros H; [reflexivity|].
  inversion H as [|? ? Hl Hr]; subst. simpl lines.
  rewrite split_class_app by exact Hl. unfold nl. simpl.
  rewrite str_app_nil_r, rev_str_involutive, (IH Hr). reflexivity.
Qed.

Lemma str_forall_and (p q : ascii -> bool) (s : string) :
  str_forall (fun c => p c && q c) s = true ->
  str_forall p s = true /\ str_forall q s = true.
Proof.
  induction s as [|c s IH]; simpl; [auto|].
  intros H. apply andb_prop in H as [Hc Hs]. apply andb_prop in Hc as [Hp Hq].
  destruct (IH Hs). rewrite Hp, Hq. auto.
Qed.

Lemma split_gem_line (g : string * string) :
  str_forall plain_char (fst g) = true -> str_forall plain_char (snd g) = true ->
  split_class is_gem_sep (gem_line g) = ["gem "; fst g; ""; " "; snd g; ""].
Proof.
  destruct g as [n v]. unfold plain_char. simpl fst; simpl snd. intros Hn Hv.
  apply str_forall_and in Hn as [Hn _]. apply str_forall_and in Hv as [Hv _].
  unfold split_class, gem_line. simpl.
  rewrite split_class_app by exact Hn. simpl.
  rewrite split_class_app by exact Hv. simpl.
  rewrite !str_app_nil_r, !rev_str_involutive. reflexivity.
Qed.

Lemma gem_line_no_newline (g : string * string) :
  str_forall plain_char (fst g) = true -> str_forall plain_char (snd g) = true ->
  str_forall (fun c => negb (Ascii.eqb c newline)) (gem_line g) = true.
Proof.
  assert (Happ : forall p a b, str_forall p a = true -> str_forall p b = true ->
                             str_forall p (a ++ b) = true).
  { intros p a b Ha Hb. induction a as [|c a IH]; [exact Hb|].
    simpl in *. apply andb_prop in Ha as [Hc Ha]. rewrite Hc, IH; auto. }
  destruct g as [n v]. unfold plain_char. simpl fst; simpl snd. intros Hn Hv.
  apply str_forall_and in Hn as [_ Hn]. apply str_forall_and in Hv as [_ Hv].
  unfold gem_line. simpl fst; simpl snd.
  apply (Happ _ "gem '"); [reflexivity|]. apply Happ; [exact Hn|].
  apply (Happ _ "', '"); [reflexivity|]. apply Happ; [exact Hv|reflexivity].
Qed.

Lemma filter_forall_iff {A} (f : A -> bool) (P : A -> Prop) (l : list A) :
  Forall P (filter f l) <-> Forall (fun x => f x = true -> P x) l.
Proof.
  induction l as [|x r IH]; simpl; [split; auto|].
  rewrite Forall_cons_iff. destruct (f x) eqn:E.
  - rewrite Forall_cons_iff, IH. split; [intros [Hx Hr]; auto|]. intros [Hx Hr]; auto.
  - rewrite IH. split; [intros Hr; split; [intros Hf; discriminate|exact Hr]|].
    intros [_ Hr]; exact Hr.
Qed.

Lemma parse_gem_line_cases (l : string) :
  (parse_gem_line l = Throw trim_undefined_err /\ length (split_class is_gem_sep l) < 3)
  \/ (exists d, parse_gem_line l = Ok d /\ 3 <= length (split_class is_gem_sep l)).
Proof.
  unfold parse_gem_line.
  destruct (nth_error (split_class is_gem_sep l) 2) as [v|] eqn:E2.
  - assert (Hl : 3 <= length (split_class is_gem_sep l)).
    { destruct (Nat.le_gt_cases 3 (length (split_class is_gem_sep l))) as [h|h]; [exact h|].
      assert (nth_error (split_class is_gem_sep l) 2 = None) by (apply nth_error_None; lia).
      congruence. }
    destruct (nth_error (split_class is_gem_sep l) 1) as [n|] eqn:E1.
    + right. eexists. split; [reflexivity|exact Hl].
    + apply nth_error_None in E1. lia.
  - apply nth_error_None in E2. left.
    destruct (nth_error (split_class is_gem_sep l) 1); split; auto; lia.
Qed.

Lemma map_res_gem (ls : list string) :
  (map_res parse_gem_line ls = Throw trim_undefined_err
   \/ exists ds, map_res parse_gem_line ls = Ok ds)
  /\ ((exists ds, map_res parse_gem_line ls = Ok ds)
      <-> Forall (fun l => 3 <= length (split_class is_gem_sep l)) ls).
Proof.
  induction ls as [|l r [IH1 IH2]]; simpl.
  - split; [right; eauto|]. split; [intros _; constructor|eauto].
  - rewrite Forall_cons_iff.
    destruct (parse_gem_line_cases l) as [[Hp Hl]|[d [Hp Hl]]]; rewrite Hp.
    + split; [left; reflexivity|]. split; [intros [ds Hd]; discriminate|].
      intros [H _]. lia.
    + destruct (map_res parse_gem_line r) as [ds|e] eqn:Er.
      * split; [right; eexists; reflexivity|].
        split; [intros _; split; [exact Hl|apply IH2; exists ds; reflexivity]|].
        intros _. eexists; reflexivity.
      * destruct IH1 as [IH1|[ds IH1]]; [|discriminate]. injection IH1 as ->.
        split; [left; reflexivity|]. split; [intros [ds Hd]; discriminate|].
        intros [_ Hr]. apply IH2 in Hr as [ds Hd]. discriminate.
Qed.

(** X1. [parseGemfile] never changes the world and always logs its start
    first. It completes exactly when every line that starts with [gem] has
    at least two separators [']/[,] (three fields); otherwise it throws the
    [TypeError] of [undefined.trim()], and the start log is all it writes. *)
Theorem parseGemfile_outcome (json_stringify : json -> string) (gemfileContent : string)
    (w : world) :
  let '(w', evs, r) := parseGemfile json_stringify gemfileContent w in
  w' = w /\ hd_error evs = Some (Log "Starting to parse Gemfile...")
  /\ (r = Ok tt <->
      Forall (fun line => String.prefix "gem" line = true ->
                          3 <= length (split_class is_gem_sep line))
             (JS.split_char newline gemfileContent))
  /\ (r <> Ok tt -> r = Throw trim_undefined_err /\ evs = [Log "Starting to parse Gemfile..."]).
Proof.
  pose proof (filter_forall_iff (String.prefix "gem")
                (fun line => 3 <= length (split_class is_gem_sep line))
                (JS.split_char newline gemfileContent)) as Hf. cbv beta in Hf.
  unfold parseGemfile.
  set (ls := filter (String.prefix "gem") (JS.split_char newline gemfileContent)) in *.
  destruct (map_res_gem ls) as [[Ht|[ds Hd]] Hiff].
  - unfold bind, log, emit, lift. rewrite Ht. simpl.
    split; [reflexivity|]. split; [reflexivity|].
    split; [|intros _; split; reflexivity].
    rewrite <- Hf, <- Hiff. split; [discriminate|]. intros [ds Hd]. congruence.
  - unfold bind, log, emit, lift. rewrite Hd. simpl.
    split; [reflexivity|]. split; [reflexivity|].
    split; [|intros H; congruence]. rewrite <- Hf, <- Hiff. split; eauto.
Qed.

(** X2. In a Gemfile written in the usual form [gem 'name', 'version'], one
    gem per line (names and versions holding no quote, comma or newline),
    every dependency [parseGemfile] logs has the trimmed name and the empty
    version: the separator right after the name's closing quote makes
    [parts[2]] the empty field between [']] and [,]. *)
Theorem parseGemfile_drops_versions (json_stringify : json -> string)
    (gems : list (string * string)) (w : world) :
  Forall (fun g => str_forall plain_char (fst g) = true /\ str_forall plain_char (snd g) = true)
         gems ->
  parseGemfile json_stringify (lines (map gem_line gems)) w =
  (w, [Log "Starting to parse Gemfile...";
       Log ("Parsed dependencies from Gemfile: "
            ++ json_stringify (JArr (map gem_json (map (fun g => (JS.trim (fst g), EmptyString))
                                                       gems))))], Ok tt).
Proof.
  intros H.
  assert (Hs : JS.split_char newline (lines (map gem_line gems)) = app (map gem_line gems) [""]).
  { apply split_lines. apply Forall_map. eapply Forall_impl; [|exact H].
    intros g [Hn Hv]. apply gem_line_no_newline; assumption. }
  assert (Hm : map_res parse_gem_line (filter (String.prefix "gem") (map gem_line gems))
               = Ok (map (fun g => (JS.trim (fst g), EmptyString)) gems)).
  { clear Hs. induction gems as [|g r IH]; [reflexivity|].
    inversion H as [|? ? [Hn Hv] Hr]; subst.
    simpl map. unfold filter; fold (filter (String.prefix "gem") (map gem_line r)).
    replace (String.prefix "gem" (gem_line g)) with true by reflexivity.
    simpl map_res. unfold parse_gem_line at 1. rewrite (split_gem_line g Hn Hv).
    simpl nth_error. rewrite (IH Hr). reflexivity. }
  unfold parseGemfile. rewrite Hs, filter_app. simpl (filter _ [""]). rewrite app_nil_r, Hm.
  reflexivity.
Qed.

(** ** The Nginx deployment *)

(** X3. Whatever the three [sudo] commands do, the promise of
    [deployNginxConfig] resolves, after issuing only the [cp] command and
    without touching the world; its [catch] never logs. In the callbacks,
    the [ln] command runs exactly when [cp] succeeded, the reload exactly
    when both succeeded, and the success message is logged, with no
    uncaught error, exactly when all three succeeded. *)
Theorem deployNginxConfig_chain (projectName : string) (cp ln reload : exec_result) (w : world) :
  let run := deployNginxConfig_run projectName cp ln reload w in
  run_world run = w /\ run_outcome run = Ok tt
  /\ run_events run = [Exec (nginx_cp_cmd projectName)]
  /\ (forall m, ~ In (Log ("Failed to deploy Nginx configuration: " ++ m))
                     (app (run_events run) (callback_events run)))
  /\ issued (nginx_ln_cmd projectName) (callback_events run) = exec_ok cp
  /\ issued nginx_reload_cmd (callback_events run) = exec_ok cp && exec_ok ln
  /\ (uncaught run = None <-> exec_ok cp && exec_ok ln && exec_ok reload = true)
  /\ (In (Log "Nginx configuration applied and server reloaded.") (callback_events run)
      <-> exec_ok cp && exec_ok ln && exec_ok reload = true).
Proof.
  assert (Hrun : deployNginxConfig_run projectName cp ln reload w =
                 mkDockerRun w [Exec (nginx_cp_cmd projectName)] (Ok tt)
                   (fst (deployNginxConfig_callbacks projectName cp ln reload))
                   (snd (deployNginxConfig_callbacks projectName cp ln reload))).
  { unfold deployNginxConfig_run, deployNginxConfig, rethrow_with, emit.
    unfold issued. simpl existsb. rewrite String.eqb_refl. simpl orb.
    destruct (deployNginxConfig_callbacks projectName cp ln reload); reflexivity. }
  assert (Hlr : String.eqb (nginx_ln_cmd projectName) nginx_reload_cmd = false) by reflexivity.
  assert (Hrl : String.eqb nginx_reload_cmd (nginx_ln_cmd projectName) = false) by reflexivity.
  cbv zeta. rewrite Hrun. cbn [run_world run_outcome run_events callback_events uncaught].
  split; [reflexivity|]. split; [reflexivity|]. split; [reflexivity|].
  split.
  { intros m Hin. apply in_app_or in Hin as [Hin|Hin].
    - destruct Hin as [Hx|[]]. discriminate.
    - destruct cp as [out|e1]; [destruct ln as [out2|e2]; [destruct reload as [out3|e3]|]|];
        simpl in Hin; repeat destruct Hin as [Hin|Hin]; try contradiction;
        try discriminate; injection Hin as Hin; simpl in Hin; discriminate. }
  destruct cp as [out|e1]; [destruct ln as [out2|e2]; [destruct reload as [out3|e3]|]|];
    unfold issued; simpl; rewrite ?String.eqb_refl, ?Hlr, ?Hrl; simpl.
  all: repeat split; try reflexivity; try (intros Hx; discriminate Hx);
    try (intros _; simpl; auto 10; fail);
    intros Hin; repeat destruct Hin as [Hin|Hin]; try contradiction;
    try discriminate; injection Hin as Hin; simpl in Hin; discriminate.
Qed.

(** ** The [scan] command of the CLI *)

Lemma cbind_done {A B} (m : CM A) (k : A -> CM B) (s : world * list string)
    (w1 : world) (a1 : list string) (evs1 : list cli_ev) (x : A) :
  m s = (w1, a1, evs1, CDone x) ->
  cbind m k s = match k x (w1, a1) with (w2, a2, evs2, r) => (w2, a2, app evs1 evs2, r) end.
Proof. intros H. unfold cbind. rewrite H. reflexivity. Qed.

Lemma scan_action_eq (json_parse : string -> option json) (json_stringify : json -> string)
    (yaml_load : string -> option yval) (yaml_dump : yval -> string) (env : cli_env)
    (projectPath projectName imageTag : string) (rest : list string) (w w1 : world)
    (evs1 : list ev) :
  scanProject json_parse json_stringify projectPath (scan_kind env) projectName imageTag
    (build_exit env) w = (w1, evs1, Ok tt) ->
  scan_action json_parse json_stringify yaml_load yaml_dump env projectPath
    (w, projectName :: imageTag :: rest) =
  match deploy_prompt yaml_load yaml_dump env projectPath projectName imageTag (w1, rest) with
  | (w2, a2, evs2, r) => (w2, a2, app (scan_prefix projectName imageTag evs1) evs2, r)
  end.
Proof.
  intros Hscan. unfold scan_action.
  do 4 (erewrite cbind_done by reflexivity).
  erewrite cbind_done by (unfold call; rewrite Hscan; reflexivity).
  erewrite cbind_done by reflexivity.
  destruct (deploy_prompt yaml_load yaml_dump env projectPath projectName imageTag (w1, rest))
    as [[[w2 a2] evs2] r].
  unfold scan_prefix. simpl. rewrite <- !app_assoc. reflexivity.
Qed.

Lemma scan_file_kind (json_parse : string -> option json) (json_stringify : json -> string)
    (projectPath projectName imageTag : string) (code : Z) (w : world) :
  scanProject json_parse json_stringify projectPath PFile projectName imageTag code w =
  (w, [Log ("Received projectName: " ++ projectName ++ ", imageTag: " ++ imageTag);
       Log ("Scanning directory: " ++ projectPath);
       SpinnerFail ("Error: " ++ projectPath ++ " is not a directory");
       Log ("Provided path is not a directory: " ++ projectPath)], Ok tt).
Proof. reflexivity. Qed.

Lemma scan_no_node (json_parse : string -> option json) (json_stringify : json -> string)
    (projectPath projectName imageTag : string) (code : Z) (w : world) :
  (forall d n, In (d, n) (files_dfs projectPath (proj w)) ->
               JS.endsWith n "package.json" = false) ->
  exists evs,
    scanProject json_parse json_stringify projectPath PDir projectName imageTag code w
    = (w, evs, Ok tt) /\ (forall c, ~ In (Exec c) evs).
Proof.
  intros Hnone.
  unfold scanProject, rethrow_with, bind, log, emit, get_world; cbv beta iota.
  rewrite scan_loop_eq. cbv beta iota.
  rewrite (no_package_json _ _ Hnone). cbn.
  eexists. split; [reflexivity|].
  intros c Hin. destruct Hin as [H|[H|Hin]]; try discriminate.
  apply in_app_or in Hin as [Hin|Hin].
  - apply in_map_scan_log in Hin as [m H]. discriminate.
  - simpl in Hin. intuition discriminate.
Qed.

Lemma deploy_prompt_asks (yaml_load : string -> option yval) (yaml_dump : yval -> string)
    (env : cli_env) (projectPath projectName imageTag : string) (w : world) (d : string)
    (rest : list string) :
  exists w2 a2 evs2 r,
    deploy_prompt yaml_load yaml_dump env projectPath projectName imageTag (w, d :: rest)
    = (w2, a2, Ask deploy_question :: evs2, r).
Proof.
  unfold deploy_prompt. erewrite cbind_done by reflexivity.
  match goal with |- exists _ _ _ _, match ?x with _ => _ end = _ =>
    destruct x as [[[w2 a2] evs2] r] end.
  exists w2, a2, evs2, r. reflexivity.
Qed.

(** X4. When the project path is a file, or a directory with no file named
    [*package.json], [scanProject] resolves without issuing any command (no
    image is built), and the [scan] command still prints "Docker image build
    complete." and asks whether to deploy the image. *)
Theorem cli_build_message_without_image (json_parse : string -> option json)
    (json_stringify : json -> string) (yaml_load : string -> option yval)
    (yaml_dump : yval -> string) (env : cli_env) (projectPath projectName imageTag : string)
    (rest : list string) (w : world) :
  scan_kind env = PFile
  \/ (scan_kind env = PDir
      /\ forall d n, In (d, n) (files_dfs projectPath (proj w)) ->
                     JS.endsWith n "package.json" = false) ->
  exists scan_evs w2 a2 evs2 r,
    scan_action json_parse json_stringify yaml_load yaml_dump env projectPath
      (w, projectName :: imageTag :: rest)
    = (w2, a2, app (scan_prefix projectName imageTag scan_evs) (Ask deploy_question :: evs2), r)
    /\ (forall c, ~ In (Exec c) scan_evs).
Proof.
  intros Hk.
  assert (Hs : exists evs, scanProject json_parse json_stringify projectPath (scan_kind env)
                             projectName imageTag (build_exit env) w = (w, evs, Ok tt)
                           /\ (forall c, ~ In (Exec c) evs)).
  { destruct Hk as [Hk|[Hk Hnone]]; rewrite Hk.
    - rewrite scan_file_kind. eexists. split; [reflexivity|].
      intros c Hin. simpl in Hin. intuition discriminate.
    - apply scan_no_node. exact Hnone. }
  destruct Hs as [evs [Hs Hno]].
  rewrite (scan_action_eq _ _ _ _ _ _ _ _ _ _ _ _ Hs).
  destruct rest as [|d rest].
  - exists evs, w, [], [], (CWaiting deploy_question). split; [reflexivity|exact Hno].
  - destruct (deploy_prompt_asks yaml_load yaml_dump env projectPath projectName imageTag
                w d rest) as [w2 [a2 [evs2 [r Hd]]]].
    rewrite Hd. exists evs, w2, a2, evs2, r. split; [reflexivity|exact Hno].
Qed.

Lemma keeps_path_exists (n : string) : keeps (path_exists n).
Proof. unfold path_exists. keeps_tac. Qed.

Lemma keeps_read_proj_file (projectPath n : string) : keeps (read_proj_file projectPath n).
Proof. unfold read_proj_file. keeps_tac. Qed.

Lemma keeps_read_template (projectType : string) : keeps (read_template projectType).
Proof. unfold read_template. keeps_tac. Qed.

#[local] Hint Resolve keeps_path_exists keeps_read_proj_file keeps_read_template : keeps.

Lemma keeps_nodejs_dockerfile (json_parse : string -> option json)
    (json_stringify : json -> string) (projectPath : string) :
  keeps (nodejs_dockerfile json_parse json_stringify projectPath).
Proof. unfold nodejs_dockerfile, analyzeNodeProject. keeps_tac. Qed.

Lemma keeps_cwd_of_keeps {A} (m : M A) : keeps m -> keeps_cwd m.
Proof. intros H w. rewrite H. reflexivity. Qed.

Lemma keeps_cwd_bind {A B} (m : M A) (k : A -> M B) :
  keeps_cwd m -> (forall a, keeps_cwd (k a)) -> keeps_cwd (bind m k).
Proof.
  intros Hm Hk w. unfold bind. specialize (Hm w).
  destruct (m w) as [[w1 evs1] [a|e]]; simpl in *; [|exact Hm].
  specialize (Hk a w1). destruct (k a w1) as [[w2 evs2] r]. simpl in *. congruence.
Qed.

Lemma keeps_cwd_rethrow {A} (h : err -> list ev) (m : M A) :
  keeps_cwd m -> keeps_cwd (rethrow_with h m).
Proof.
  intros Hm w. unfold rethrow_with. specialize (Hm w).
  destruct (m w) as [[w1 evs1] [a|e]]; exact Hm.
Qed.

Lemma keeps_cwd_write_proj_file (projectPath n c : string) :
  keeps_cwd (write_proj_file projectPath n c).
Proof.
  intros w. unfold write_proj_file, bind, get_world, put_world, emit, throw. simpl.
  destruct (find_child n (proj w)) as [[|]|]; reflexivity.
Qed.

Lemma keeps_cwd_generateDockerfile (json_parse : string -> option json)
    (json_stringify : json -> string) (projectType projectPath : string) :
  keeps_cwd (generateDockerfile json_parse json_stringify projectType projectPath).
Proof.
  unfold generateDockerfile.
  apply keeps_cwd_bind; [apply keeps_cwd_of_keeps, keeps_path_exists|intros b].
  destruct b; [apply keeps_cwd_of_keeps; keeps_tac|].
  apply keeps_cwd_bind; [apply keeps_cwd_of_keeps, keeps_log|intros _].
  apply keeps_cwd_bind; [apply keeps_cwd_rethrow|intros _; apply keeps_cwd_of_keeps, keeps_ret].
  apply keeps_cwd_bind.
  - apply keeps_cwd_of_keeps. destruct (String.eqb projectType "nodejs");
      [apply keeps_nodejs_dockerfile|apply keeps_read_template].
  - intros c. apply keeps_cwd_bind; [apply keeps_cwd_of_keeps, keeps_log|intros _].
    apply keeps_cwd_bind; [apply keeps_cwd_write_proj_file|intros _].
    apply keeps_cwd_of_keeps, keeps_log.
Qed.

Lemma keeps_cwd_scanProject (json_parse : string -> option json)
    (json_stringify : json -> string) (projectPath : string) (kind : path_kind)
    (projectName imageTag : string) (code : Z) :
  keeps_cwd (scanProject json_parse json_stringify projectPath kind projectName imageTag code).
Proof.
  assert (Hb : keeps (buildDockerImage projectPath projectName imageTag code))
    by (intros w; apply buildDockerImage_world).
  assert (Hsl : forall fs df pj, keeps (scan_loop fs df pj))
    by (intros fs df pj w; rewrite scan_loop_eq; reflexivity).
  unfold scanProject.
  apply keeps_cwd_bind; [apply keeps_cwd_of_keeps, keeps_log|intros _].
  apply keeps_cwd_rethrow.
  apply keeps_cwd_bind; [apply keeps_cwd_of_keeps, keeps_log|intros _].
  destruct kind; [apply keeps_cwd_of_keeps; keeps_tac|apply keeps_cwd_of_keeps; keeps_tac|].
  apply keeps_cwd_bind; [apply keeps_cwd_of_keeps, keeps_get_world|intros w].
  apply keeps_cwd_bind; [apply keeps_cwd_of_keeps, Hsl|intros [df pj]].
  apply keeps_cwd_bind; [|intros _; apply keeps_cwd_of_keeps, keeps_emit].
  destruct pj; [|apply keeps_cwd_of_keeps; keeps_tac].
  apply keeps_cwd_bind; [apply keeps_cwd_of_keeps, keeps_log|intros _].
  apply keeps_cwd_bind; [apply keeps_cwd_of_keeps, keeps_emit|intros _].
  apply keeps_cwd_bind.
  - destruct df; [apply keeps_cwd_of_keeps, keeps_emit|].
    apply keeps_cwd_bind; [apply keeps_cwd_generateDockerfile|intros _].
    apply keeps_cwd_of_keeps, keeps_emit.
  - intros _. apply keeps_cwd_bind; [apply keeps_cwd_of_keeps, Hb|intros _].
    apply keeps_cwd_of_keeps, keeps_emit.
Qed.

(** X5. Once the scan has resolved, the answer to "deploy the image?" is
    compared in lower case, so [YES] or [Yes] go on to the deployment
    question; any answer whose lower case is not [yes] prints "Skipping
    deployment." and ends the command. The deployment type is compared
    exactly: an answer other than [local], [remote], [k8s] and [nginx]
    (such as [K8s]) prints "Invalid deployment option. Skipping deployment."
    and ends the command without running anything. *)
Theorem cli_deploy_answers (json_parse : string -> option json)
    (json_stringify : json -> string) (yaml_load : string -> option yval)
    (yaml_dump : yval -> string) (env : cli_env)
    (projectPath projectName imageTag deployOption deployType : string)
    (rest : list string) (w w1 : world) (evs1 : list ev) :
  scanProject json_parse json_stringify projectPath (scan_kind env) projectName imageTag
    (build_exit env) w = (w1, evs1, Ok tt) ->
  (JS.toLowerCase deployOption <> "yes" ->
   scan_action json_parse json_stringify yaml_load yaml_dump env projectPath
     (w, projectName :: imageTag :: deployOption :: deployType :: rest)
   = (w1, deployType :: rest,
      app (scan_prefix projectName imageTag evs1)
          [Ask deploy_question; Console "Skipping deployment."], CDone tt))
  /\ (JS.toLowerCase deployOption = "yes" ->
      ~ In deployType ["local"; "remote"; "k8s"; "nginx"] ->
      scan_action json_parse json_stringify yaml_load yaml_dump env projectPath
        (w, projectName :: imageTag :: deployOption :: deployType :: rest)
      = (w1, rest,
         app (scan_prefix projectName imageTag evs1)
             [Ask deploy_question; Ask type_question;
              Console "Invalid deployment option. Skipping deployment."], CDone tt)).
Proof.
  intros Hscan. rewrite (scan_action_eq _ _ _ _ _ _ _ _ _ _ _ _ Hscan).
  unfold deploy_prompt. erewrite cbind_done by reflexivity.
  split.
  - intros Hno. apply String.eqb_neq in Hno. rewrite Hno. reflexivity.
  - intros Hyes Hnot. rewrite Hyes, String.eqb_refl. cbv iota.
    erewrite cbind_done by reflexivity.
    assert (Hl : String.eqb deployType "local" = false)
      by (apply String.eqb_neq; intros ->; apply Hnot; simpl; tauto).
    assert (Hr : String.eqb deployType "remote" = false)
      by (apply String.eqb_neq; intros ->; apply Hnot; simpl; tauto).
    assert (Hk : String.eqb deployType "k8s" = false)
      by (apply String.eqb_neq; intros ->; apply Hnot; simpl; tauto).
    assert (Hn : String.eqb deployType "nginx" = false)
      by (apply String.eqb_neq; intros ->; apply Hnot; simpl; tauto).
    rewrite Hl, Hr, Hk, Hn. reflexivity.
Qed.

(** X6. In the [remote] branch, an empty answer to "Enter the remote Docker
    host" (the operator just presses Enter) makes [deployDocker] run the
    local [docker run] command: the empty host is falsy, and the user and
    password typed afterwards play no part in what is run or logged. *)
Theorem cli_remote_empty_host (json_parse : string -> option json)
    (json_stringify : json -> string) (yaml_load : string -> option yval)
    (yaml_dump : yval -> string) (env : cli_env)
    (projectPath projectName imageTag deployOption remoteUser remotePassword : string)
    (rest : list string) (w w1 : world) (evs1 : list ev) :
  scanProject json_parse json_stringify projectPath (scan_kind env) projectName imageTag
    (build_exit env) w = (w1, evs1, Ok tt) ->
  JS.toLowerCase deployOption = "yes" ->
  scan_action json_parse json_stringify yaml_load yaml_dump env projectPath
    (w, projectName :: imageTag :: deployOption :: "remote" :: EmptyString :: remoteUser
          :: remotePassword :: rest)
  = (w1, rest,
     app (scan_prefix projectName imageTag evs1)
         [Ask deploy_question; Ask type_question; Ask "Enter the remote Docker host: ";
          Ask "Enter the username for the remote host: ";
          Ask "Enter the password for the remote host: ";
          CoreEv (Log ("Deploying with command: docker run -d -p 8000:8000 "
                       ++ projectName ++ ":" ++ imageTag));
          CoreEv (Exec ("docker run -d -p 8000:8000 " ++ projectName ++ ":" ++ imageTag))],
     CDone tt).
Proof.
  intros Hscan Hyes. rewrite (scan_action_eq _ _ _ _ _ _ _ _ _ _ _ _ Hscan).
  unfold deploy_prompt. erewrite cbind_done by reflexivity.
  rewrite Hyes, String.eqb_refl. cbv iota.
  erewrite cbind_done by reflexivity.
  change (String.eqb "remote" "local") with false.
  change (String.eqb "remote" "remote") with true. cbv iota.
  do 3 (erewrite cbind_done by reflexivity).
  reflexivity.
Qed.


(** ** Witnesses of the CLI and Gemfile properties *)

Lemma parseGemfile_drops_versions_witness :
  Forall (fun g => str_forall plain_char (fst g) = true /\ str_forall plain_char (snd g) = true)
         [("rails", "6.1.4"); ("pg", "1.2")]
  /\ parseGemfile (fun _ => "deps") (lines (map gem_line [("rails", "6.1.4"); ("pg", "1.2")]))
       (mkWorld [] [])
     = (mkWorld [] [],
        [Log "Starting to parse Gemfile...";
         Log ("Parsed dependencies from Gemfile: " ++ "deps")], Ok tt).
Proof.
  assert (H : Forall (fun g => str_forall plain_char (fst g) = true
                               /\ str_forall plain_char (snd g) = true)
                [("rails", "6.1.4"); ("pg", "1.2")]).
  { repeat constructor. }
  split; [exact H|].
  exact (parseGemfile_drops_versions (fun _ => "deps") _ (mkWorld [] []) H).
Defined.

Lemma cli_build_message_without_image_witness :
  exists scan_evs w2 a2 evs2 r,
    scan_action (fun _ => None) (fun _ => EmptyString) (fun _ => None) (fun _ => EmptyString)
      (mkCliEnv PDir 0 "/work" idle_env) "/app"
      (mkWorld [File "main.py" "print(1)"] [], ["app"; "v1"; "no"])
    = (w2, a2, app (scan_prefix "app" "v1" scan_evs) (Ask deploy_question :: evs2), r)
    /\ (forall c, ~ In (Exec c) scan_evs).
Proof.
  apply cli_build_message_without_image. right. split; [reflexivity|].
  simpl. intros d n [H|[]]. inversion H. reflexivity.
Defined.

Lemma cli_deploy_answers_witness :
  exists w1 evs1,
    scanProject (fun _ => Some (JObj [])) (fun _ => EmptyString) "/demo" PDir "demo" "v1" 0
      demo_project = (w1, evs1, Ok tt)
    /\ scan_action (fun _ => Some (JObj [])) (fun _ => EmptyString) (fun _ => None)
         (fun _ => EmptyString) (mkCliEnv PDir 0 "/work" idle_env) "/demo"
         (demo_project, ["demo"; "v1"; "YES"; "K8s"])
       = (w1, [],
          app (scan_prefix "demo" "v1" evs1)
              [Ask deploy_question; Ask type_question;
               Console "Invalid deployment option. Skipping deployment."], CDone tt).
Proof.
  eexists; eexists.
  assert (Hscan : scanProject (fun _ => Some (JObj [])) (fun _ => EmptyString) "/demo"
                    (scan_kind (mkCliEnv PDir 0 "/work" idle_env)) "demo" "v1"
                    (build_exit (mkCliEnv PDir 0 "/work" idle_env)) demo_project
                  = (_, _, Ok tt)) by (vm_compute; reflexivity).
  split; [exact Hscan|].
  apply (proj2 (cli_deploy_answers _ _ (fun _ => None) (fun _ => EmptyString) _ _ _ _ _ _ _
                  _ _ _ Hscan)).
  - reflexivity.
  - simpl. intuition discriminate.
Defined.

Lemma cli_remote_empty_host_witness :
  scan_action (fun _ => None) (fun _ => EmptyString) (fun _ => None) (fun _ => EmptyString)
    (mkCliEnv PFile 0 "/work" idle_env) "/app"
    (mkWorld [] [], ["app"; "v1"; "yes"; "remote"; ""; "root"; "secret"])
  = (mkWorld [] [], [],
     app (scan_prefix "app" "v1"
            [Log ("Received projectName: " ++ "app" ++ ", imageTag: " ++ "v1");
             Log ("Scanning directory: " ++ "/app");
             SpinnerFail ("Error: " ++ "/app" ++ " is not a directory");
             Log ("Provided path is not a directory: " ++ "/app")])
         [Ask deploy_question; Ask type_question; Ask "Enter the remote Docker host: ";
          Ask "Enter the username for the remote host: ";
          Ask "Enter the password for the remote host: ";
          CoreEv (Log ("Deploying with command: docker run -d -p 8000:8000 " ++ "app" ++ ":" ++ "v1"));
          CoreEv (Exec ("docker run -d -p 8000:8000 " ++ "app" ++ ":" ++ "v1"))],
     CDone tt).
Proof.
  apply (cli_remote_empty_host _ _ _ _ (mkCliEnv PFile 0 "/work" idle_env)).
  - reflexivity.
  - reflexivity.
Defined.


(** ** Manifest generation, Dockerfile synthesis and the YAML scan *)

Lemma assoc_first_set_file (k p c : string) (l : list (string * string)) :
  assoc_first k (set_file p c l) = if String.eqb k p then Some c else assoc_first k l.
Proof.
  induction l as [|[p' c'] r IH]; simpl; [reflexivity|].
  destruct (String.eqb_spec p p') as [<-|Hne]; simpl.
  - destruct (String.eqb k p); reflexivity.
  - rewrite IH. destruct (String.eqb_spec k p) as [->|Hk]; [|reflexivity].
    apply String.eqb_neq in Hne. rewrite Hne. reflexivity.
Qed.

Lemma str_app_inv_l (a b c : string) : a ++ b = a ++ c -> b = c.
Proof. induction a as [|x a IH]; simpl; [auto|]. intros H. injection H. exact IH. Qed.

Lemma manifest_paths_differ (cwd projectName : string) :
  Path.join cwd (projectName ++ "-deployment.yaml")
  <> Path.join cwd (projectName ++ "-service.yaml").
Proof.
  unfold Path.join. intros H.
  apply str_app_inv_l in H. simpl in H. injection H as H.
  apply str_app_inv_l in H. discriminate H.
Qed.


(** X9. When the project root holds no Dockerfile, [generateDockerfile] for a
    project type other than nodejs, java and python fails: the missing
    template's read error is logged ("Failed to generate Dockerfile: ...")
    and rethrown, and nothing is written. *)
Theorem generateDockerfile_unknown_type (json_parse : string -> option json)
    (json_stringify : json -> string) (projectType projectPath : string) (w : world) :
  find_child "Dockerfile" (proj w) = None ->
  ~ In projectType ["nodejs"; "java"; "python"] ->
  generateDockerfile json_parse json_stringify projectType projectPath w =
  (w, [Log ("Generating Dockerfile for project type: " ++ projectType);
       Log ("Failed to generate Dockerfile: "
            ++ err_message (ENOENT ("templates/" ++ projectType ++ ".Dockerfile")))],
   Throw (ENOENT ("templates/" ++ projectType ++ ".Dockerfile"))).
Proof.
  intros Hdf Hpt.
  assert (Hn : String.eqb projectType "nodejs" = false)
    by (apply String.eqb_neq; intros ->; apply Hpt; simpl; auto).
  assert (Hj : String.eqb projectType "java" = false)
    by (apply String.eqb_neq; intros ->; apply Hpt; simpl; auto).
  assert (Hp : String.eqb projectType "python" = false)
    by (apply String.eqb_neq; intros ->; apply Hpt; simpl; auto).
  cbv [generateDockerfile read_template path_exists bind get_world ret log emit rethrow_with
       throw].
  rewrite Hdf, Hn, Hj, Hp. reflexivity.
Qed.

(** X10. When the project root holds no Dockerfile and its package.json
    does not parse, [generateDockerfile "nodejs"] fails with the parse
    error: index.js and the template are not read, the failure is logged and
    rethrown, and nothing is written. *)
Theorem generateDockerfile_invalid_package_json (json_parse : string -> option json)
    (json_stringify : json -> string) (projectPath n c : string) (w : world) :
  find_child "Dockerfile" (proj w) = None ->
  find_child "package.json" (proj w) = Some (File n c) ->
  json_parse c = None ->
  generateDockerfile json_parse json_stringify "nodejs" projectPath w =
  (w, [Log "Generating Dockerfile for project type: nodejs";
       Log "Analyzing Node.js project...";
       Log ("Failed to generate Dockerfile: "
            ++ err_message (JsonSyntaxError (Path.join projectPath "package.json")))],
   Throw (JsonSyntaxError (Path.join projectPath "package.json"))).
Proof.
  intros Hdf Hpj Hc.
  cbv [generateDockerfile]. change (String.eqb "nodejs" "nodejs") with true.
  cbv [nodejs_dockerfile analyzeNodeProject read_proj_file path_exists
       bind get_world ret log emit rethrow_with throw].
  rewrite Hdf. cbv beta iota. rewrite Hpj. cbv beta iota. rewrite Hpj. cbv beta iota.
  rewrite Hc. reflexivity.
Qed.

(** X11. [analyzeNodeProject] never changes the files; when the project
    root has neither package.json nor index.js it resolves with an empty
    object and an empty text, after logging "No package.json found." and
    "No index.js found.". *)
Theorem analyzeNodeProject_defaults (json_parse : string -> option json)
    (projectPath : string) (w : world) :
  fst (fst (analyzeNodeProject json_parse projectPath w)) = w
  /\ (find_child "package.json" (proj w) = None ->
      find_child "index.js" (proj w) = None ->
      analyzeNodeProject json_parse projectPath w =
      (w, [Log "No package.json found."; Log "No index.js found."], Ok (JObj [], EmptyString))).
Proof.
  split.
  - revert w. unfold analyzeNodeProject. keeps_tac.
  - intros Hpj Hidx.
    cbv [analyzeNodeProject path_exists bind get_world ret log emit].
    rewrite Hpj, Hidx. reflexivity.
Qed.


(** ** The readiness wait and the status reports *)

Lemma poll_loop_error (namespace : string) (timeout startTime : Z) (clock : nat -> Z)
    (sample : nat -> exec_result) (stderr : string) :
  forall n fuel k, (n < fuel)%nat ->
  (forall j, (k <= j <= k + n)%nat -> (clock j - startTime < 1000 * timeout)%Z) ->
  (forall j, (k <= j < k + n)%nat ->
             exists out, sample j = ExecOk out /\ pods_ready out = false) ->
  sample (k + n)%nat = ExecErr stderr ->
  poll_loop fuel namespace timeout startTime clock sample k
  = (repeat (Exec ("kubectl get pods -n " ++ namespace)) (S n), PollError stderr).
Proof.
  induction n as [|n IH]; intros fuel k Hf Hin Hprev Herr;
    (destruct fuel as [|fuel]; [lia|]); cbn [poll_loop];
    (assert (H := Hin k ltac:(lia)); apply Z.ltb_lt in H; rewrite H).
  - rewrite Nat.add_0_r in Herr. rewrite Herr. reflexivity.
  - destruct (Hprev k ltac:(lia)) as [out [Hs Hr]]. rewrite Hs, Hr.
    rewrite (IH fuel (S k)); [reflexivity|lia| | |].
    + intros j Hj. apply Hin. lia.
    + intros j Hj. apply Hprev. lia.
    + replace (S k + n)%nat with (k + S n)%nat by lia. exact Herr.
Qed.

(** X13. If the clock is read at the start and advances by at least 5 s
    between tests, a failing [kubectl get pods] aborts [waitForPodsReady]
    at once: when the samples before the [i]-th were listings with a pod
    not running and the [i]-th (taken before the deadline) is an error,
    the wait issues exactly [i + 1] queries, marks the spinner failed, logs
    the error and rethrows it, without waiting for the timeout. *)
Theorem waitForPodsReady_kubectl_error (namespace : string) (timeout startTime : Z)
    (clock : nat -> Z) (sample : nat -> exec_result) (i : nat) (stderr : string) (w : world) :
  (startTime <= clock O)%Z ->
  (forall j, (clock j + 5000 <= clock (S j))%Z) ->
  (clock i - startTime < 1000 * timeout)%Z ->
  (forall j, (j < i)%nat -> exists out, sample j = ExecOk out /\ pods_ready out = false) ->
  sample i = ExecErr stderr ->
  waitForPodsReady namespace timeout startTime clock sample w =
  (w, app (repeat (Exec ("kubectl get pods -n " ++ namespace)) (S i))
          [SpinnerFail "Error while checking pod status.";
           Log ("Error while waiting for pods: " ++ stderr)],
   Throw (ExecFailed stderr)).
Proof.
  intros Hstart Hstep Hi Hprev Herr.
  assert (Hf : (i < poll_fuel timeout)%nat).
  { unfold poll_fuel. pose proof (clock_lower clock Hstep i). lia. }
  unfold waitForPodsReady, poll.
  rewrite (poll_loop_error namespace timeout startTime clock sample stderr i _ 0 Hf).
  - reflexivity.
  - intros j Hj. pose proof (clock_mono clock Hstep j i ltac:(lia)). lia.
  - intros j Hj. apply Hprev. lia.
  - exact Herr.
Qed.

(** X14. The first test of [waitForPodsReady]: when the deadline has
    already passed (for instance a timeout of 0 seconds or less), no query
    is issued and the wait fails with the timeout error; otherwise a first
    listing without any pod row (only the header, or nothing) counts as all
    pods running, and the wait succeeds after that one query. *)
Theorem waitForPodsReady_first_test (namespace : string) (timeout startTime : Z)
    (clock : nat -> Z) (sample : nat -> exec_result) (w : world) :
  ((1000 * timeout <= clock O - startTime)%Z ->
   waitForPodsReady namespace timeout startTime clock sample w =
   (w, [SpinnerFail ("Pods did not become ready within " ++ Z_to_string timeout ++ " seconds.")],
    Throw PodsTimeout))
  /\ (forall out, (clock O - startTime < 1000 * timeout)%Z -> sample O = ExecOk out ->
      pod_rows out = [] ->
      waitForPodsReady namespace timeout startTime clock sample w =
      (w, [Exec ("kubectl get pods -n " ++ namespace); SpinnerSucceed "All pods are running."],
       Ok tt)).
Proof.
  split.
  - intros H. unfold waitForPodsReady, poll, poll_fuel. cbn [poll_loop].
    apply Z.ltb_ge in H. rewrite H. reflexivity.
  - intros out Hlt Hs Hrows.
    assert (Hr : pods_ready out = true).
    { apply pods_ready_spec. unfold all_running. rewrite Hrows. constructor. }
    unfold waitForPodsReady, poll, poll_fuel. cbn [poll_loop].
    apply Z.ltb_lt in Hlt. rewrite Hlt, Hs, Hr. reflexivity.
Qed.

Lemma for_each_warn (body : string -> M unit) (P : string -> bool) (msg : string -> string)
    (l : list string) (w : world) :
  (forall row w0, body row w0 = (w0, if P row then [] else [Log (msg row)], Ok tt)) ->
  for_each l body w
  = (w, map (fun row => Log (msg row)) (filter (fun row => negb (P row)) l), Ok tt).
Proof.
  intros Hb. induction l as [|x r IH]; [reflexivity|].
  cbn [for_each filter]. unfold bind at 1. rewrite Hb, IH.
  destruct (P x); reflexivity.
Qed.

(** X15. [report_pods] rejects only when [kubectl get pods] itself fails
    (after logging "Error getting pods: ..."). On success it always
    resolves, whatever the pod statuses: after the listing it logs one
    "Pod <name> is in status <status>" line per non-blank row whose status
    column is not Running, in listing order, and no such line exactly when
    every row is Running. The world is unchanged. *)
Theorem report_pods_outcome (out : exec_result) (w : world) :
  match out with
  | ExecErr stderr =>
      report_pods out w = (w, [Exec "kubectl get pods"; Log ("Error getting pods: " ++ stderr)],
                           Throw (ExecFailed stderr))
  | ExecOk stdout =>
      let warnings :=
        map (fun row => Log ("Pod " ++ status_or_undefined (nth_error (JS.split_ws row) 0)
                             ++ " is in status " ++ status_or_undefined (pod_status row)))
            (filter (fun row => negb (String.eqb (status_or_undefined (pod_status row)) "Running"))
                    (pod_rows stdout)) in
      report_pods out w
      = (w, Exec "kubectl get pods" :: Log ("Pods status:" ++ nl ++ stdout) :: warnings, Ok tt)
      /\ (warnings = [] <-> all_running stdout)
  end.
Proof.
  destruct out as [stdout|stderr]; [|reflexivity].
  assert (HP : forall row,
            (match pod_status row with Some x => String.eqb x "Running" | None => false end)
            = String.eqb (status_or_undefined (pod_status row)) "Running").
  { intros row. destruct (pod_status row); reflexivity. }
  split.
  - unfold report_pods. cbv [bind emit log].
    rewrite (for_each_warn _ (fun row => String.eqb (status_or_undefined (pod_status row)) "Running")
               (fun row => "Pod " ++ status_or_undefined (nth_error (JS.split_ws row) 0)
                           ++ " is in status " ++ status_or_undefined (pod_status row))).
    + reflexivity.
    + intros row w0. cbv beta. rewrite <- HP.
      destruct (pod_status row) as [x|]; [destruct (String.eqb x "Running")|]; reflexivity.
  - unfold all_running. induction (pod_rows stdout) as [|row r IH]; cbn [filter map].
    + split; [constructor|reflexivity].
    + rewrite Forall_cons_iff, <- IH.
      destruct (String.eqb_spec (status_or_undefined (pod_status row)) "Running") as [E|E];
        cbn [negb map].
      * split; [intros H; split; [|exact H]|intros [_ H]; exact H].
        destruct (pod_status row); cbn in E; [congruence|discriminate].
      * split; [discriminate|]. intros [H _]. rewrite H in E. contradiction.
Qed.

Lemma str_forall_app (p : ascii -> bool) (a b : string) :
  str_forall p (a ++ b) = str_forall p a && str_forall p b.
Proof.
  induction a as [|c a IH]; simpl; [reflexivity|]. rewrite IH, andb_assoc. reflexivity.
Qed.

Lemma str_forall_impl (p q : ascii -> bool) (s : string) :
  (forall c, p c = true -> q c = true) -> str_forall p s = true -> str_forall q s = true.
Proof.
  intros Hpq. induction s as [|c s IH]; simpl; [auto|].
  intros H. apply andb_prop in H as [Hc Hs]. rewrite (Hpq c Hc), (IH Hs). reflexivity.
Qed.

Lemma digit_not_ws (c : ascii) : is_digit c = true -> negb (JS.is_ws c) = true.
Proof.
  destruct c as [[] [] [] [] [] [] [] []]; vm_compute; congruence.
Qed.

Lemma space_is_ws (c : ascii) : Ascii.eqb c " "%char = true -> JS.is_ws c = true.
Proof. intros H. apply Ascii.eqb_eq in H. subst c. reflexivity. Qed.

Lemma not_ws_not_newline (c : ascii) :
  negb (JS.is_ws c) = true -> negb (Ascii.eqb c newline) = true.
Proof.
  intros H. destruct (Ascii.eqb_spec c newline) as [->|]; [discriminate|reflexivity].
Qed.

Lemma split_ws_word (a r cur : string) (b : bool) :
  str_forall (fun c => negb (JS.is_ws c)) a = true -> a <> EmptyString ->
  JS.split_ws_acc (a ++ r) cur b = JS.split_ws_acc r (JS.rev_str a ++ cur) false.
Proof.
  revert cur b. induction a as [|c a IH]; intros cur b Ha Hne; [congruence|].
  simpl in Ha. apply andb_prop in Ha as [Hc Ha]. apply negb_true_iff in Hc.
  simpl. rewrite Hc. destruct a as [|c' a'].
  - reflexivity.
  - rewrite IH by (auto || discriminate). simpl. rewrite !str_app_assoc. reflexivity.
Qed.

Lemma split_ws_spaces (sp r : string) :
  str_forall JS.is_ws sp = true -> JS.split_ws_acc (sp ++ r) EmptyString true
                                   = JS.split_ws_acc r EmptyString true.
Proof.
  induction sp as [|c sp IH]; simpl; [reflexivity|].
  intros H. apply andb_prop in H as [Hc Hs]. rewrite Hc. auto.
Qed.

Lemma split_ws_field (a sp r : string) (b : bool) :
  str_forall (fun c => negb (JS.is_ws c)) a = true -> a <> EmptyString ->
  str_forall (fun c => Ascii.eqb c " "%char) sp = true -> sp <> EmptyString ->
  JS.split_ws_acc (a ++ sp ++ r) EmptyString b = a :: JS.split_ws_acc r EmptyString true.
Proof.
  intros Ha Hne Hsp Hspne. rewrite split_ws_word by assumption.
  apply (str_forall_impl _ _ _ space_is_ws) in Hsp.
  destruct sp as [|c sp]; [congruence|]. simpl in Hsp |- *.
  apply andb_prop in Hsp as [Hc Hs]. rewrite Hc, split_ws_spaces by exact Hs.
  rewrite str_app_nil_r, rev_str_involutive. reflexivity.
Qed.

Lemma split_ws_last (a : string) (b : bool) :
  str_forall (fun c => negb (JS.is_ws c)) a = true -> a <> EmptyString ->
  JS.split_ws_acc a EmptyString b = [a].
Proof.
  intros Ha Hne. pose proof (split_ws_word a EmptyString EmptyString b Ha Hne) as H.
  rewrite str_app_nil_r in H. rewrite H. simpl. rewrite str_app_nil_r, rev_str_involutive.
  reflexivity.
Qed.

Lemma digits_prefix_slash (d r : string) :
  str_forall is_digit d = true ->
  digits_prefix (d ++ String "/"%char r) = (d, String "/"%char r).
Proof.
  induction d as [|c d IH]; simpl; [reflexivity|].
  intros H. apply andb_prop in H as [Hc Hd]. rewrite Hc, IH by exact Hd. reflexivity.
Qed.

Lemma port_match_nodeport (port np proto : string) :
  str_forall (fun c => negb (Ascii.eqb c ":"%char)) port = true ->
  np <> EmptyString -> str_forall is_digit np = true ->
  port_match (port ++ ":" ++ np ++ "/" ++ proto) = Some np.
Proof.
  intros Hp Hne Hd. induction port as [|c port IH].
  - simpl. rewrite digits_prefix_slash by exact Hd.
    destruct np as [|d ds]; [congruence|]. reflexivity.
  - simpl in Hp |- *. apply andb_prop in Hp as [Hc Hp]. apply negb_true_iff in Hc.
    rewrite Hc. auto.
Qed.

Lemma not_blank_word (a r : string) :
  str_forall (fun c => negb (JS.is_ws c)) a = true -> a <> EmptyString ->
  is_blank (a ++ r) = false.
Proof.
  intros Ha Hne. destruct a as [|c a]; [congruence|].
  simpl in Ha. apply andb_prop in Ha as [Hc _]. apply negb_true_iff in Hc.
  unfold is_blank, JS.trim. simpl. rewrite Hc. simpl.
  apply String.eqb_neq. intros H.
  assert (Hn : forall x, JS.trim_start (x ++ String c EmptyString) <> EmptyString).
  { induction x as [|y x IHx]; simpl; [rewrite Hc; discriminate|].
    destruct (JS.is_ws y); [exact IHx|discriminate]. }
  apply (Hn (JS.rev_str (a ++ r))).
  rewrite <- (rev_str_involutive (JS.trim_start _)), H. reflexivity.
Qed.

Lemma service_port_app (projectName : string) (l1 l2 : list string) (acc : option string) :
  service_port projectName (app l1 l2) acc
  = match service_port projectName l1 acc with
    | Ok a => service_port projectName l2 a
    | Throw e => Throw e
    end.
Proof.
  revert acc. induction l1 as [|row r IH]; intros acc; [reflexivity|].
  cbn [app service_port].
  destruct (_ || _); [|apply IH].
  destruct (nth_error (JS.split_ws row) 4); [apply IH|reflexivity].
Qed.

Lemma service_port_skip (projectName : string) (rows : list string) (acc : option string) :
  Forall (fun row => forall n, nth_error (JS.split_ws row) 0 = Some n ->
                               n <> projectName ++ "-service" /\ n <> "web-service") rows ->
  service_port projectName rows acc = Ok acc.
Proof.
  induction 1 as [|row r Hrow _ IH]; [reflexivity|].
  cbn [service_port].
  replace (String.eqb _ (projectName ++ "-service") || String.eqb _ "web-service") with false.
  - exact IH.
  - destruct (nth_error (JS.split_ws row) 0) as [n|] eqn:E.
    + destruct (Hrow n eq_refl) as [H1 H2].
      apply String.eqb_neq in H1, H2. rewrite H1, H2. reflexivity.
    + destruct projectName; reflexivity.
Qed.

(** X16. [report_services] finds the NodePort of the project's service in
    an aligned [kubectl get services] listing: when the listing is a header
    line, rows not named <name>-service or web-service, and then the row
    "<name>-service <type> <cluster-ip> <external-ip> <port>:<nodeport>/<proto> <age>"
    (columns separated by runs of spaces, each column non-empty without
    white space, the port without a colon and the node port made of
    digits), it resolves after logging "Service is exposed on port:
    <nodeport>". *)
Theorem report_services_nodeport (projectName header type clusterIp externalIp port nodePort
    proto age s1 s2 s3 s4 s5 : string) (others : list string) (w : world) :
  str_forall (fun c => negb (JS.is_ws c)) projectName = true ->
  Forall (fun f => f <> EmptyString /\ str_forall (fun c => negb (JS.is_ws c)) f = true)
         [type; clusterIp; externalIp; port; proto; age] ->
  Forall (fun sp => sp <> EmptyString /\ str_forall (fun c => Ascii.eqb c " "%char) sp = true)
         [s1; s2; s3; s4; s5] ->
  str_forall (fun c => negb (Ascii.eqb c ":"%char)) port = true ->
  nodePort <> EmptyString -> str_forall is_digit nodePort = true ->
  Forall (fun l => str_forall (fun c => negb (Ascii.eqb c newline)) l = true) (header :: others) ->
  Forall (fun row => forall n, nth_error (JS.split_ws row) 0 = Some n ->
                               n <> projectName ++ "-service" /\ n <> "web-service") others ->
  let row := (projectName ++ "-service") ++ s1 ++ type ++ s2 ++ clusterIp ++ s3 ++ externalIp
             ++ s4 ++ (port ++ ":" ++ nodePort ++ "/" ++ proto) ++ s5 ++ age in
  let out := lines (header :: app others [row]) in
  report_services projectName (ExecOk out) w
  = (w, [Exec "kubectl get services"; Log ("Services status:" ++ nl ++ out);
         Log ("Service is exposed on port: " ++ nodePort)], Ok tt).
Proof.
  intros Hpn Hf Hs Hport Hnp Hdig Hnl Hoth row out.
  rewrite Forall_forall in Hf, Hs.
  destruct (Hf type ltac:(simpl; tauto)) as [Hty1 Hty2].
  destruct (Hf clusterIp ltac:(simpl; tauto)) as [Hci1 Hci2].
  destruct (Hf externalIp ltac:(simpl; tauto)) as [Hei1 Hei2].
  destruct (Hf port ltac:(simpl; tauto)) as [Hpo1 Hpo2].
  destruct (Hf proto ltac:(simpl; tauto)) as [Hpr1 Hpr2].
  destruct (Hf age ltac:(simpl; tauto)) as [Hag1 Hag2].
  destruct (Hs s1 ltac:(simpl; tauto)) as [Hs1a Hs1b].
  destruct (Hs s2 ltac:(simpl; tauto)) as [Hs2a Hs2b].
  destruct (Hs s3 ltac:(simpl; tauto)) as [Hs3a Hs3b].
  destruct (Hs s4 ltac:(simpl; tauto)) as [Hs4a Hs4b].
  destruct (Hs s5 ltac:(simpl; tauto)) as [Hs5a Hs5b].
  (* the service name and the PORT(S) column hold no white space *)
  assert (Hname : str_forall (fun c => negb (JS.is_ws c)) (projectName ++ "-service") = true)
    by (rewrite str_forall_app, Hpn; reflexivity).
  assert (Hname' : projectName ++ "-service" <> EmptyString)
    by (destruct projectName; discriminate).
  assert (Hpc : str_forall (fun c => negb (JS.is_ws c)) (port ++ ":" ++ nodePort ++ "/" ++ proto)
                = true).
  { rewrite !str_forall_app, Hpo2, Hpr2. simpl.
    rewrite (str_forall_impl _ _ _ digit_not_ws Hdig). reflexivity. }
  assert (Hpc' : port ++ ":" ++ nodePort ++ "/" ++ proto <> EmptyString)
    by (destruct port; simpl; discriminate).
  assert (Hcols : JS.split_ws row
                  = [projectName ++ "-service"; type; clusterIp; externalIp;
                     port ++ ":" ++ nodePort ++ "/" ++ proto; age]).
  { unfold row, JS.split_ws.
    rewrite split_ws_field, split_ws_field, split_ws_field, split_ws_field, split_ws_field,
      split_ws_last by assumption. reflexivity. }
  (* the row holds no newline and is not blank *)
  assert (Hw : forall f, str_forall (fun c => negb (JS.is_ws c)) f = true ->
                         str_forall (fun c => negb (Ascii.eqb c newline)) f = true)
    by (intros f; apply str_forall_impl; exact not_ws_not_newline).
  assert (Hsp : forall sp, str_forall (fun c => Ascii.eqb c " "%char) sp = true ->
                           str_forall (fun c => negb (Ascii.eqb c newline)) sp = true).
  { intros sp. apply str_forall_impl. intros c Hc. apply Ascii.eqb_eq in Hc. subst c.
    reflexivity. }
  assert (Hrow_nl : str_forall (fun c => negb (Ascii.eqb c newline)) row = true).
  { pose proof (str_forall_impl _ _ _ digit_not_ws Hdig) as Hdig'.
    unfold row. rewrite !str_forall_app.
    repeat match goal with
           | |- context [str_forall ?p ?f] =>
               match f with
               | _ ++ _ => fail 1
               | String _ _ => fail 1
               | _ => first [ rewrite (Hw f) by assumption | rewrite (Hsp f) by assumption ]
               end
           end.
    reflexivity. }
  assert (Hblank : is_blank row = false) by (unfold row; apply not_blank_word; assumption).
  assert (Hrows : pod_rows out = app (filter (fun l => negb (is_blank l)) others) [row]).
  { unfold pod_rows, out. change (ascii_of_nat 10) with newline. rewrite split_lines.
    - cbn [tl app]. rewrite <- app_assoc, filter_app. cbn [app filter]. rewrite Hblank.
      reflexivity.
    - inversion Hnl as [|? ? Hh Ho]. constructor; [exact Hh|].
      apply Forall_app. split; [exact Ho|]. constructor; [exact Hrow_nl|constructor]. }
  assert (Hskip : service_port projectName (filter (fun l => negb (is_blank l)) others) None
                  = Ok None).
  { apply service_port_skip. apply Forall_forall. intros x Hx.
    apply filter_In in Hx as [Hx _]. exact (proj1 (Forall_forall _ _) Hoth x Hx). }
  cbv [report_services bind emit log lift ret].
  rewrite Hrows, service_port_app, Hskip. cbn [service_port]. rewrite Hcols.
  cbn [nth_error]. rewrite String.eqb_refl. cbn [orb].
  rewrite port_match_nodeport by assumption. reflexivity.
Qed.

(** ** Witnesses of the generator, scan, wait and report properties *)

Lemma generateDockerfile_unknown_type_witness :
  generateDockerfile (fun _ => None) (fun _ => EmptyString) "ruby" "/demo" demo_project =
  (demo_project,
   [Log ("Generating Dockerfile for project type: " ++ "ruby");
    Log ("Failed to generate Dockerfile: "
         ++ err_message (ENOENT ("templates/" ++ "ruby" ++ ".Dockerfile")))],
   Throw (ENOENT ("templates/" ++ "ruby" ++ ".Dockerfile"))).
Proof.
  apply generateDockerfile_unknown_type.
  - reflexivity.
  - simpl. intuition discriminate.
Defined.

Lemma generateDockerfile_invalid_package_json_witness :
  generateDockerfile (fun _ => None) (fun _ => EmptyString) "nodejs" "/demo"
    (mkWorld [File "package.json" "{oops"; File "index.js" "app.listen(8000)"] []) =
  (mkWorld [File "package.json" "{oops"; File "index.js" "app.listen(8000)"] [],
   [Log "Generating Dockerfile for project type: nodejs";
    Log "Analyzing Node.js project...";
    Log ("Failed to generate Dockerfile: "
         ++ err_message (JsonSyntaxError (Path.join "/demo" "package.json")))],
   Throw (JsonSyntaxError (Path.join "/demo" "package.json"))).
Proof.
  apply (generateDockerfile_invalid_package_json _ _ _ "package.json" "{oops");
    reflexivity.
Defined.

Lemma analyzeNodeProject_defaults_witness :
  fst (fst (analyzeNodeProject (fun _ => None) "/app" (mkWorld [File "main.py" ""] [])))
  = mkWorld [File "main.py" ""] []
  /\ analyzeNodeProject (fun _ => None) "/app" (mkWorld [File "main.py" ""] []) =
     (mkWorld [File "main.py" ""] [], [Log "No package.json found."; Log "No index.js found."],
      Ok (JObj [], EmptyString)).
Proof.
  destruct (analyzeNodeProject_defaults (fun _ => None) "/app" (mkWorld [File "main.py" ""] []))
    as [H1 H2].
  split; [exact H1|]. apply H2; reflexivity.
Defined.


Lemma waitForPodsReady_kubectl_error_witness :
  waitForPodsReady "default" 300 0 sample_clock
    (fun j => if (j <? 1)%nat then ExecOk (sample_pods j) else ExecErr "connection refused")
    (mkWorld [] []) =
  (mkWorld [] [],
   app (repeat (Exec ("kubectl get pods -n " ++ "default")) 2)
       [SpinnerFail "Error while checking pod status.";
        Log ("Error while waiting for pods: " ++ "connection refused")],
   Throw (ExecFailed "connection refused")).
Proof.
  apply (waitForPodsReady_kubectl_error "default" 300 0 sample_clock _ 1).
  - unfold sample_clock. lia.
  - intros j. unfold sample_clock. lia.
  - unfold sample_clock. lia.
  - intros j Hj. assert (j = O) by lia. subst j.
    exists (sample_pods 0). split; [reflexivity|vm_compute; reflexivity].
  - reflexivity.
Defined.

Lemma waitForPodsReady_first_test_witness :
  waitForPodsReady "default" 0 0 sample_clock (fun _ => ExecOk EmptyString) (mkWorld [] []) =
  (mkWorld [] [],
   [SpinnerFail ("Pods did not become ready within " ++ Z_to_string 0 ++ " seconds.")],
   Throw PodsTimeout)
  /\ waitForPodsReady "default" 300 0 sample_clock
       (fun _ => ExecOk ("NAME READY STATUS RESTARTS AGE" ++ nl)) (mkWorld [] []) =
     (mkWorld [] [],
      [Exec ("kubectl get pods -n " ++ "default"); SpinnerSucceed "All pods are running."],
      Ok tt).
Proof.
  split.
  - apply (proj1 (waitForPodsReady_first_test "default" 0 0 sample_clock _ _)).
    unfold sample_clock. lia.
  - apply (proj2 (waitForPodsReady_first_test "default" 300 0 sample_clock _ _)
             ("NAME READY STATUS RESTARTS AGE" ++ nl)).
    + unfold sample_clock. lia.
    + reflexivity.
    + vm_compute. reflexivity.
Defined.

Lemma report_services_nodeport_witness :
  let row := ("demo" ++ "-service") ++ "   " ++ "NodePort" ++ "   " ++ "10.100.2.3" ++ "   "
             ++ "<none>" ++ "   " ++ ("80" ++ ":" ++ "32441" ++ "/" ++ "TCP") ++ "   " ++ "5m" in
  let out := lines ("NAME   TYPE   CLUSTER-IP   EXTERNAL-IP   PORT(S)   AGE"
                    :: app ["kubernetes   ClusterIP   10.96.0.1   <none>   443/TCP   1d"] [row]) in
  report_services "demo" (ExecOk out) (mkWorld [] [])
  = (mkWorld [] [], [Exec "kubectl get services"; Log ("Services status:" ++ nl ++ out);
                     Log ("Service is exposed on port: " ++ "32441")], Ok tt).
Proof.
  apply report_services_nodeport.
  - reflexivity.
  - repeat constructor; discriminate.
  - repeat constructor; discriminate.
  - reflexivity.
  - discriminate.
  - reflexivity.
  - repeat constructor.
  - constructor; [|constructor]. intros n Hn. vm_compute in Hn. injection Hn as <-.
    split; discriminate.
Defined.

(** ** The apply loops of the Kubernetes driver *)

Lemma apply_yaml_cases (kind Kind projectPath : string) (apply : string -> exec_result)
    (f : string) (w : world) :
  match apply_yaml kind Kind projectPath apply f w with
  | (w', evs, r) =>
      w' = w
      /\ filter is_exec evs = (if applied projectPath w f then [apply_cmd f] else [])
      /\ r = (if applied projectPath w f
              then match apply f with
                   | ExecOk _ => Ok tt
                   | ExecErr stderr => Throw (ExecFailed stderr)
                   end
              else Ok tt)
  end.
Proof.
  unfold apply_yaml, applied.
  destruct (String.eqb f EmptyString); [repeat split|].
  cbv [bind log emit file_exists get_world ret throw snd negb andb].
  destruct (existsb (String.eqb f) (scanEntireDirectory projectPath (proj w))
            || existsb (fun pc => String.eqb f (fst pc)) (cwd_files w)); [|repeat split].
  destruct (apply f); repeat split.
Qed.

(** X18. [deployKubernetes] with an empty project path fails at once with
    "projectPath is undefined or invalid.", after logging the failure: no
    file is read or written and no command is run. *)
Theorem deployKubernetes_empty_path (yaml_load : string -> option yval)
    (yaml_dump : yval -> string) (cwd : string) (env : kube_env) (projectName : string)
    (w : world) :
  deployKubernetes yaml_load yaml_dump cwd env projectName EmptyString w =
  (w, [Log ("Failed to deploy on Kubernetes: Error: projectPath is undefined or invalid.")],
   Throw (InvalidPath "projectPath is undefined or invalid.")).
Proof. reflexivity. Qed.

